(** * Kinetis RTC driver (arch/arm/src/kinetis/kinetis_rtc.c)

    A shallow embedding of the driver: the memory-mapped RTC registers, the
    free-running 32-bit seconds counter with its prescaler, the driver's two
    globals, and every function of the file as a state transformer over
    that machine.  Register accesses are recorded in a bus trace, and the
    oscillator may tick between any two accesses. *)

From Stdlib Require Import ZArith List Lia Bool Arith.
Import ListNotations.
Open Scope Z_scope.

(** ** Constants of the headers the driver includes

    [chip/kinetis_rtc.h], [chip/kinetis_sim.h], [errno.h] and the board
    configuration are not part of the driver file, so their constants are
    parameters of the development. *)

Class Chip := {
  CONFIG_RTC_FREQUENCY : Z;   (* prescaler ticks per second *)
  CONFIG_RTC_ALARM : bool;
  SIM_SCGC6_RTC : Z;
  RTC_CR_SC16P : Z;
  RTC_CR_SC4P : Z;
  RTC_CR_OSCE : Z;
  RTC_SR_TCE : Z;             (* time counter enable *)
  RTC_IER_TAIE : Z;           (* time alarm interrupt enable *)
  EBUSY : Z;
  ENODATA : Z
}.

Definition OK : Z := 0.

(** A [uint32_t] is an integer taken modulo 2^32. *)
Definition uint32 (z : Z) : Z := z mod 2 ^ 32.

Definition is_uint32 (z : Z) : bool := (0 <=? z) && (z <? 2 ^ 32).

(** What the driver needs of the constants: the frequency is a positive
    [int], the two enable masks are non-zero 32-bit words, and the errno
    values are positive. *)
Definition chip_ok (c : Chip) : bool :=
  (0 <? CONFIG_RTC_FREQUENCY) && (CONFIG_RTC_FREQUENCY <? 2 ^ 31)
  && is_uint32 RTC_SR_TCE && negb (RTC_SR_TCE =? 0)
  && is_uint32 RTC_IER_TAIE && negb (RTC_IER_TAIE =? 0)
  && (0 <? EBUSY) && (0 <? ENODATA).

(** The values of the Kinetis K20 (Teensy 3.x) port. *)
Definition k20 : Chip := {|
  CONFIG_RTC_FREQUENCY := 32768;
  CONFIG_RTC_ALARM := true;
  SIM_SCGC6_RTC := Z.shiftl 1 29;
  RTC_CR_SC16P := Z.shiftl 1 10;
  RTC_CR_SC4P := Z.shiftl 1 12;
  RTC_CR_OSCE := Z.shiftl 1 8;
  RTC_SR_TCE := Z.shiftl 1 4;
  RTC_IER_TAIE := Z.shiftl 1 2;
  EBUSY := 16;
  ENODATA := 61
|}.

(** ** Registers *)

Inductive reg : Type :=
| KINETIS_SIM_SCGC6
| KINETIS_RTC_TSR
| KINETIS_RTC_TPR
| KINETIS_RTC_TAR
| KINETIS_RTC_CR
| KINETIS_RTC_SR
| KINETIS_RTC_IER.

Record regfile : Type := mkRegs {
  SIM_SCGC6 : Z;
  RTC_TSR : Z;
  RTC_TPR : Z;
  RTC_TAR : Z;
  RTC_CR : Z;
  RTC_SR : Z;
  RTC_IER : Z
}.

Definition reg_get (r : reg) (h : regfile) : Z :=
  match r with
  | KINETIS_SIM_SCGC6 => SIM_SCGC6 h
  | KINETIS_RTC_TSR => RTC_TSR h
  | KINETIS_RTC_TPR => RTC_TPR h
  | KINETIS_RTC_TAR => RTC_TAR h
  | KINETIS_RTC_CR => RTC_CR h
  | KINETIS_RTC_SR => RTC_SR h
  | KINETIS_RTC_IER => RTC_IER h
  end.

Definition reg_set (r : reg) (v : Z) (h : regfile) : regfile :=
  match r with
  | KINETIS_SIM_SCGC6 =>
      mkRegs v (RTC_TSR h) (RTC_TPR h) (RTC_TAR h) (RTC_CR h) (RTC_SR h) (RTC_IER h)
  | KINETIS_RTC_TSR =>
      mkRegs (SIM_SCGC6 h) v (RTC_TPR h) (RTC_TAR h) (RTC_CR h) (RTC_SR h) (RTC_IER h)
  | KINETIS_RTC_TPR =>
      mkRegs (SIM_SCGC6 h) (RTC_TSR h) v (RTC_TAR h) (RTC_CR h) (RTC_SR h) (RTC_IER h)
  | KINETIS_RTC_TAR =>
      mkRegs (SIM_SCGC6 h) (RTC_TSR h) (RTC_TPR h) v (RTC_CR h) (RTC_SR h) (RTC_IER h)
  | KINETIS_RTC_CR =>
      mkRegs (SIM_SCGC6 h) (RTC_TSR h) (RTC_TPR h) (RTC_TAR h) v (RTC_SR h) (RTC_IER h)
  | KINETIS_RTC_SR =>
      mkRegs (SIM_SCGC6 h) (RTC_TSR h) (RTC_TPR h) (RTC_TAR h) (RTC_CR h) v (RTC_IER h)
  | KINETIS_RTC_IER =>
      mkRegs (SIM_SCGC6 h) (RTC_TSR h) (RTC_TPR h) (RTC_TAR h) (RTC_CR h) (RTC_SR h) v
  end.

(** ** The counter hardware

    While the time-counter-enable bit of the status register is set, each
    oscillator tick increments the prescaler; when the prescaler has counted
    a full second it wraps to zero and the seconds register increments. *)

(** The registers the counter neither reads nor writes. *)
Definition beside_counter (r : reg) : bool :=
  match r with
  | KINETIS_RTC_TSR | KINETIS_RTC_TPR | KINETIS_RTC_SR => false
  | _ => true
  end.

Section Hardware.
Context {chip : Chip}.

Definition counting (h : regfile) : bool :=
  negb (Z.land (RTC_SR h) RTC_SR_TCE =? 0).

Definition hw_tick (h : regfile) : regfile :=
  if counting h then
    if RTC_TPR h + 1 <? CONFIG_RTC_FREQUENCY
    then reg_set KINETIS_RTC_TPR (RTC_TPR h + 1) h
    else reg_set KINETIS_RTC_TPR 0
           (reg_set KINETIS_RTC_TSR (uint32 (RTC_TSR h + 1)) h)
  else h.

Fixpoint hw_ticks (n : nat) (h : regfile) : regfile :=
  match n with
  | O => h
  | S n' => hw_ticks n' (hw_tick h)
  end.

(** The next tick takes the prescaler over a second boundary. *)
Definition at_wrap (h : regfile) : bool :=
  counting h && negb (RTC_TPR h + 1 <? CONFIG_RTC_FREQUENCY).

(** Prescaler wraps (second boundaries) crossed by [n] ticks. *)
Fixpoint wraps (n : nat) (h : regfile) : nat :=
  match n with
  | O => O
  | S n' => ((if at_wrap h then 1 else 0) + wraps n' (hw_tick h))%nat
  end.

(** A running counter holds a prescaler below the wrap value and a 32-bit
    seconds count. *)
Definition counter_wf (h : regfile) : bool :=
  (0 <=? RTC_TPR h) && (RTC_TPR h <? CONFIG_RTC_FREQUENCY)
  && is_uint32 (RTC_TSR h).

End Hardware.

(** ** The machine the driver runs on *)

(** An [alarmcb_t] is NULL or the address of a host function. *)
Definition alarmcb_t : Type := option nat.

Record timespec : Type := mkTimespec {
  tv_sec : Z;
  tv_nsec : Z
}.

Inductive access : Type :=
| RegRead (r : reg) (v : Z)
| RegWrite (r : reg) (v : Z).

(** What a host callback may do to the driver while it runs: the alarm
    entry points of [kinetis_alarm.h]. *)
Inductive host_call : Type :=
| HostSetAlarm (tp : timespec) (callback : alarmcb_t)
| HostCancelAlarm.

Record machine : Type := mkMachine {
  hw : regfile;                 (* the memory-mapped registers *)
  g_alarmcb : alarmcb_t;
  g_rtc_enabled : bool;
  irq_masked : bool;            (* inside a critical section *)
  isr_attached : bool;          (* kinetis_rtc_interrupt is on the RTC vector *)
  irq_enabled : bool;           (* the RTC line is enabled at the controller *)
  bus : list access;            (* register accesses so far, oldest first *)
  fired : list nat;             (* callbacks invoked so far, oldest first *)
  clk : nat -> nat;             (* oscillator ticks preceding the k-th access *)
  host : nat -> list host_call  (* body of the host function at an address *)
}.

Definition set_hw (h : regfile) (st : machine) : machine :=
  mkMachine h (g_alarmcb st) (g_rtc_enabled st) (irq_masked st)
    (isr_attached st) (irq_enabled st) (bus st) (fired st) (clk st) (host st).

Definition set_g_alarmcb (cb : alarmcb_t) (st : machine) : machine :=
  mkMachine (hw st) cb (g_rtc_enabled st) (irq_masked st)
    (isr_attached st) (irq_enabled st) (bus st) (fired st) (clk st) (host st).

Definition set_g_rtc_enabled (b : bool) (st : machine) : machine :=
  mkMachine (hw st) (g_alarmcb st) b (irq_masked st)
    (isr_attached st) (irq_enabled st) (bus st) (fired st) (clk st) (host st).

Definition set_irq_masked (b : bool) (st : machine) : machine :=
  mkMachine (hw st) (g_alarmcb st) (g_rtc_enabled st) b
    (isr_attached st) (irq_enabled st) (bus st) (fired st) (clk st) (host st).

Definition set_isr_attached (b : bool) (st : machine) : machine :=
  mkMachine (hw st) (g_alarmcb st) (g_rtc_enabled st) (irq_masked st)
    b (irq_enabled st) (bus st) (fired st) (clk st) (host st).

Definition set_irq_enabled (b : bool) (st : machine) : machine :=
  mkMachine (hw st) (g_alarmcb st) (g_rtc_enabled st) (irq_masked st)
    (isr_attached st) b (bus st) (fired st) (clk st) (host st).

Definition log_access (a : access) (st : machine) : machine :=
  mkMachine (hw st) (g_alarmcb st) (g_rtc_enabled st) (irq_masked st)
    (isr_attached st) (irq_enabled st) (bus st ++ [a]) (fired st) (clk st)
    (host st).

Definition log_fired (f : nat) (st : machine) : machine :=
  mkMachine (hw st) (g_alarmcb st) (g_rtc_enabled st) (irq_masked st)
    (isr_attached st) (irq_enabled st) (bus st) (fired st ++ [f]) (clk st)
    (host st).

(** Driver code is a state transformer returning a value. *)
Definition M (A : Type) : Type := machine -> A * machine.

Definition ret {A : Type} (a : A) : M A := fun st => (a, st).

Definition bind {A B : Type} (m : M A) (k : A -> M B) : M B :=
  fun st => let (a, st') := m st in k a st'.

Declare Scope driver_scope.
Delimit Scope driver_scope with driver.
Notation "x <- m ;; k" := (bind m (fun x => k))
  (at level 61, m at next level, right associativity) : driver_scope.
Notation "m ;; k" := (bind m (fun _ => k))
  (at level 61, right associativity) : driver_scope.
Open Scope driver_scope.

Definition writes_to (r : reg) (a : access) : bool :=
  match a, r with
  | RegWrite KINETIS_SIM_SCGC6 _, KINETIS_SIM_SCGC6
  | RegWrite KINETIS_RTC_TSR _, KINETIS_RTC_TSR
  | RegWrite KINETIS_RTC_TPR _, KINETIS_RTC_TPR
  | RegWrite KINETIS_RTC_TAR _, KINETIS_RTC_TAR
  | RegWrite KINETIS_RTC_CR _, KINETIS_RTC_CR
  | RegWrite KINETIS_RTC_SR _, KINETIS_RTC_SR
  | RegWrite KINETIS_RTC_IER _, KINETIS_RTC_IER => true
  | _, _ => false
  end.

(** The accesses a run appended to the bus trace. *)
Definition issued (st st' : machine) : list access :=
  skipn (length (bus st)) (bus st').

Section Driver.
Context {chip : Chip}.

(** *** The collaborators: register access, critical sections, IRQ setup *)

(** The oscillator ticks that precede the next bus access. *)
Definition elapse (st : machine) : machine :=
  set_hw (hw_ticks (clk st (length (bus st))) (hw st)) st.

Definition getreg32 (r : reg) : M Z :=
  fun st =>
    let st1 := elapse st in
    let v := reg_get r (hw st1) in
    (v, log_access (RegRead r v) st1).

Definition putreg32 (v : Z) (r : reg) : M unit :=
  fun st =>
    let st1 := elapse st in
    (tt, log_access (RegWrite r (uint32 v))
           (set_hw (reg_set r (uint32 v) (hw st1)) st1)).

Definition enter_critical_section : M bool :=
  fun st => (irq_masked st, set_irq_masked true st).

Definition leave_critical_section (flags : bool) : M unit :=
  fun st => (tt, set_irq_masked flags st).

Definition irq_attach : M unit :=
  fun st => (tt, set_isr_attached true st).

Definition up_enable_irq : M unit :=
  fun st => (tt, set_irq_enabled true st).

(** *** up_rtc_initialize *)

Definition up_rtc_initialize : M Z :=
  regval <- getreg32 KINETIS_SIM_SCGC6 ;;
  let regval := Z.lor regval SIM_SCGC6_RTC in
  putreg32 regval KINETIS_SIM_SCGC6 ;;
  putreg32 0 KINETIS_RTC_SR ;;
  putreg32 (Z.lor (Z.lor RTC_CR_SC16P RTC_CR_SC4P) RTC_CR_OSCE)
    KINETIS_RTC_CR ;;
  putreg32 0 KINETIS_RTC_IER ;;
  tsr <- getreg32 KINETIS_RTC_TSR ;;
  putreg32 tsr KINETIS_RTC_TSR ;;
  (if CONFIG_RTC_ALARM
   then irq_attach ;; up_enable_irq
   else ret tt) ;;
  putreg32 RTC_SR_TCE KINETIS_RTC_SR ;;
  (fun st => (tt, set_g_rtc_enabled true st)) ;;
  ret OK.

(** *** up_rtc_time (builds without CONFIG_RTC_HIRES) *)

Definition up_rtc_time : M Z :=
  getreg32 KINETIS_RTC_TSR.

(** *** up_rtc_gettime (builds with CONFIG_RTC_HIRES)

    The do-while loop has no bound in the source; [fuel] is the number of
    iterations the model is allowed, and [None] means they were used up. *)

Fixpoint gettime_loop (fuel : nat) (st : machine)
  : option ((Z * Z) * machine) :=
  match fuel with
  | O => None
  | S fuel' =>
      let (prescaler, st1) := getreg32 KINETIS_RTC_TPR st in
      let (seconds, st2) := getreg32 KINETIS_RTC_TSR st1 in
      let (prescaler2, st3) := getreg32 KINETIS_RTC_TPR st2 in
      if prescaler >? prescaler2
      then gettime_loop fuel' st3
      else Some ((seconds, prescaler), st3)
  end.

(** [tv_nsec] is a [long]: 32 bits, two's complement, on this target.
    [tv_sec] is a [time_t], which holds the 32-bit seconds count as it is. *)
Definition to_long (z : Z) : Z := (z + 2 ^ 31) mod 2 ^ 32 - 2 ^ 31.

Definition up_rtc_gettime (fuel : nat) (st : machine)
  : option ((Z * timespec) * machine) :=
  let (flags, st0) := enter_critical_section st in
  match gettime_loop fuel st0 with
  | None => None
  | Some ((seconds, prescaler), st3) =>
      let (_, st4) := leave_critical_section flags st3 in
      let tp :=
        {| tv_sec := seconds;
           tv_nsec :=
             to_long (uint32 (prescaler *
                                Z.quot 1000000000 CONFIG_RTC_FREQUENCY)) |} in
      Some ((OK, tp), st4)
  end.

(** *** up_rtc_settime

    The product is taken in [long] arithmetic and stored in a
    [uint32_t]; for a nanosecond field below one second it cannot
    overflow, whatever the frequency. *)

Definition up_rtc_settime (tp : timespec) : M Z :=
  let seconds := uint32 (tv_sec tp) in
  let prescaler :=
    uint32 (tv_nsec tp * Z.quot CONFIG_RTC_FREQUENCY 1000000000) in
  flags <- enter_critical_section ;;
  putreg32 0 KINETIS_RTC_SR ;;
  putreg32 prescaler KINETIS_RTC_TPR ;;
  putreg32 seconds KINETIS_RTC_TSR ;;
  putreg32 RTC_SR_TCE KINETIS_RTC_SR ;;
  leave_critical_section flags ;;
  ret OK.

(** *** kinetis_rtc_setalarm *)

Definition kinetis_rtc_setalarm (tp : timespec) (callback : alarmcb_t)
  : M Z :=
  fun st =>
    match g_alarmcb st with
    | None =>
        ((fun st => (tt, set_g_alarmcb callback st)) ;;
         putreg32 (tv_sec tp) KINETIS_RTC_TAR ;;
         putreg32 RTC_IER_TAIE KINETIS_RTC_IER ;;
         ret OK) st
    | Some _ => ret (- EBUSY) st
    end.

(** *** kinetis_rtc_cancelalarm *)

Definition kinetis_rtc_cancelalarm : M Z :=
  fun st =>
    match g_alarmcb st with
    | Some _ =>
        ((fun st => (tt, set_g_alarmcb None st)) ;;
         putreg32 0 KINETIS_RTC_IER ;;
         ret OK) st
    | None => ret (- ENODATA) st
    end.

(** *** kinetis_rtc_interrupt

    [g_alarmcb()] runs host code.  The call is recorded in [fired]; the
    body of the function may call back into the alarm entry points. *)

Definition host_step (c : host_call) : M unit :=
  match c with
  | HostSetAlarm tp callback => kinetis_rtc_setalarm tp callback ;; ret tt
  | HostCancelAlarm => kinetis_rtc_cancelalarm ;; ret tt
  end.

Fixpoint host_run (body : list host_call) : M unit :=
  match body with
  | [] => ret tt
  | c :: body' => host_step c ;; host_run body'
  end.

Definition call_alarmcb (f : nat) : M unit :=
  fun st => host_run (host st f) (log_fired f st).

Definition kinetis_rtc_interrupt : M Z :=
  (fun st =>
     match g_alarmcb st with
     | Some f =>
         (call_alarmcb f ;;
          (fun st => (tt, set_g_alarmcb None st))) st
     | None => ret tt st
     end) ;;
  putreg32 0 KINETIS_RTC_TAR ;;
  putreg32 0 KINETIS_RTC_IER ;;
  ret 0.

End Driver.

(** ** Vocabulary of the properties *)

Section Properties.
Context {chip : Chip}.

(** Oscillator ticks that elapse over the next [i] bus accesses. *)
Fixpoint elapsed (st : machine) (i : nat) : nat :=
  match i with
  | O => O
  | S i' => (elapsed st i' + clk st (length (bus st) + i'))%nat
  end.

(** Iteration [j] of the read loop makes the accesses [3j], [3j+1] and
    [3j+2] that follow [st].  Second boundaries crossed during the whole
    iteration, and during its window from the first prescaler read to
    the second. *)
Definition iteration_wraps (st : machine) (j : nat) : nat :=
  wraps (elapsed st (3 * j + 3) - elapsed st (3 * j))
    (hw_ticks (elapsed st (3 * j)) (hw st)).

Definition reread_wraps (st : machine) (j : nat) : nat :=
  wraps (elapsed st (3 * j + 3) - elapsed st (3 * j + 1))
    (hw_ticks (elapsed st (3 * j + 1)) (hw st)).

(** The write-path conversion as the specification words it: the inverse
    of [nanoseconds = fraction * (1_000_000_000 / frequency)], truncated. *)
Definition spec_fraction_of_nsec (nsec : Z) : Z :=
  Z.quot nsec (Z.quot 1000000000 CONFIG_RTC_FREQUENCY).

(** The alarm interrupt is enabled in the interrupt-enable register. *)
Definition alarm_armed (st : machine) : bool :=
  negb (Z.land (RTC_IER (hw st)) RTC_IER_TAIE =? 0).

Definition slot_invariant (st : machine) : Prop :=
  g_alarmcb st <> None <-> alarm_armed st = true.

(** The three operations on the alarm slot. *)
Inductive alarm_op : Type :=
| OpSetAlarm (tp : timespec) (callback : alarmcb_t)
| OpCancelAlarm
| OpInterrupt.

Definition alarm_exec (op : alarm_op) : M Z :=
  match op with
  | OpSetAlarm tp callback => kinetis_rtc_setalarm tp callback
  | OpCancelAlarm => kinetis_rtc_cancelalarm
  | OpInterrupt => kinetis_rtc_interrupt
  end.

Fixpoint alarm_run (ops : list alarm_op) (st : machine) : machine :=
  match ops with
  | [] => st
  | op :: ops' => alarm_run ops' (snd (alarm_exec op st))
  end.

Definition passes_callback (op : alarm_op) : bool :=
  match op with
  | OpSetAlarm _ None => false
  | _ => true
  end.

(** The alarm request outstanding after a run, read off the history of
    the calls and their results alone: a set-alarm that returned OK
    programs its target, a cancel that returned OK and any run of the
    interrupt handler retire it. *)
Definition alarm_note (op : alarm_op) (r : Z) (pending : option timespec)
  : option timespec :=
  match op with
  | OpSetAlarm tp _ => if r =? OK then Some tp else pending
  | OpCancelAlarm => if r =? OK then None else pending
  | OpInterrupt => None
  end.

Fixpoint alarm_history (ops : list alarm_op) (st : machine)
  (pending : option timespec) : option timespec :=
  match ops with
  | [] => pending
  | op :: ops' =>
      alarm_history ops' (snd (alarm_exec op st))
        (alarm_note op (fst (alarm_exec op st)) pending)
  end.

(** The alarm hardware agrees with an outstanding request: compare value
    and interrupt enable are programmed for it, or the interrupt is off. *)
Definition programmed_for (pending : option timespec) (st : machine) : Prop :=
  match pending with
  | Some tp =>
      RTC_IER (hw st) = RTC_IER_TAIE
      /\ RTC_TAR (hw st) = uint32 (tv_sec tp)
  | None => RTC_IER (hw st) = 0
  end.

(** The state the boot hook leaves behind, from a machine whose globals
    still hold their static initial values. *)
Definition initialized (boot : machine) : machine :=
  snd (up_rtc_initialize boot).

(** [st'] is [st] after [k] further register reads: the counter has
    moved on by the ticks that fell before them, and nothing else has
    changed. *)
Record after_reads (k : nat) (st st' : machine) : Prop := {
  ar_hw : hw st' = hw_ticks (elapsed st k) (hw st);
  ar_len : length (bus st') = (length (bus st) + k)%nat;
  ar_clk : clk st' = clk st;
  ar_host : host st' = host st;
  ar_cb : g_alarmcb st' = g_alarmcb st;
  ar_en : g_rtc_enabled st' = g_rtc_enabled st;
  ar_mask : irq_masked st' = irq_masked st;
  ar_isr : isr_attached st' = isr_attached st;
  ar_irq : irq_enabled st' = irq_enabled st;
  ar_fired : fired st' = fired st
}.

(** The first half of the interrupt handler: deliver the callback if
    there is one, and forget it. *)
Definition after_callback (st : machine) : machine :=
  match g_alarmcb st with
  | Some f => set_g_alarmcb None (snd (call_alarmcb f st))
  | None => st
  end.

End Properties.

(** ** Concrete machines *)

Definition still : nat -> nat := fun _ => O.

Definition no_host : nat -> list host_call := fun _ => [].

Definition power_on (h : regfile) (c : nat -> nat)
  (hs : nat -> list host_call) : machine :=
  mkMachine h None false false false false [] [] c hs.

Definition regs0 : regfile := mkRegs 0 0 0 0 0 0 0.

(** A counter one tick before the end of second 9, running. *)
Definition regs_late : regfile := mkRegs 0 9 32767 0 0 16 0.

(** One tick falls between the first prescaler read and the seconds read. *)
Definition torn_clk (k : nat) : nat :=
  match k with
  | 1%nat => 1%nat
  | _ => 0%nat
  end.

Definition torn_start : machine := power_on regs_late torn_clk no_host.

(** A schedule on which every iteration of the read loop straddles exactly
    one second boundary: almost a full second passes before the first
    read, and one tick between the first read and the second. *)
Fixpoint racing_clk (k : nat) : nat :=
  match k with
  | 0%nat => Z.to_nat 32767
  | 1%nat => 1%nat
  | 2%nat => 0%nat
  | S (S (S k')) => racing_clk k'
  end.

Definition regs_running : regfile := mkRegs 0 0 0 0 0 16 0.

Definition racing : machine := power_on regs_running racing_clk no_host.

(** A host function that re-enters the driver from interrupt context. *)
Definition rearming_host (f : nat) : list host_call :=
  match f with
  | 7%nat => [HostCancelAlarm; HostSetAlarm (mkTimespec 500 0) (Some 8%nat)]
  | _ => []
  end.

(** The state the racing schedule is in at the top of every iteration. *)
Definition at_second_start (st : machine) : Prop :=
  clk st = racing_clk
  /\ (exists q, length (bus st) = (3 * q)%nat)
  /\ @counting k20 (hw st) = true
  /\ RTC_TPR (hw st) = 0
  /\ 0 <= RTC_TSR (hw st) < 2 ^ 32.

(** Where [torn_start] ends up after the read loop has gone round twice. *)
Definition torn_end : machine :=
  mkMachine (mkRegs 0 10 0 0 0 16 0) None false false false false
    [RegRead KINETIS_RTC_TPR 32767; RegRead KINETIS_RTC_TSR 10;
     RegRead KINETIS_RTC_TPR 0; RegRead KINETIS_RTC_TPR 0;
     RegRead KINETIS_RTC_TSR 10; RegRead KINETIS_RTC_TPR 0]
    [] torn_clk no_host.

(** A freshly initialised K20 whose host function 7 re-enters the driver,
    and the same machine with an alarm pending for that function. *)
Definition alarm_idle : machine :=
  @initialized k20 (power_on regs0 still rearming_host).

Definition alarm_pending : machine :=
  snd (@kinetis_rtc_setalarm k20 (mkTimespec 100 0) (Some 7%nat) alarm_idle).

(** Half a second past second 1000. *)
Definition half_past : timespec := mkTimespec 1000 500000000.

(** ** Vocabulary for whole runs of the driver *)

Definition is_read (a : access) : bool :=
  match a with
  | RegRead _ _ => true
  | RegWrite _ _ => false
  end.

(** A bus access that stays within the alarm registers. *)
Definition alarm_write (a : access) : bool :=
  match a with
  | RegWrite KINETIS_RTC_TAR _ | RegWrite KINETIS_RTC_IER _ => true
  | _ => false
  end.

(** What the counter consists of: seconds, prescaler, status. *)
Definition counter_view (h : regfile) : Z * Z * Z :=
  (RTC_TSR h, RTC_TPR h, RTC_SR h).

(** [st] with new register contents and further bus accesses. *)
Definition accessed (h : regfile) (l : list access) (st : machine) : machine :=
  mkMachine h (g_alarmcb st) (g_rtc_enabled st) (irq_masked st)
    (isr_attached st) (irq_enabled st) (bus st ++ l) (fired st) (clk st)
    (host st).

(** One if the alarm slot holds a callback, zero if it is empty. *)
Definition slot_load (st : machine) : nat :=
  match g_alarmcb st with
  | Some _ => 1%nat
  | None => 0%nat
  end.

Section RunVocabulary.
Context {chip : Chip}.

(** The time a register file displays, as [up_rtc_gettime] reports it. *)
Definition shown (h : regfile) : timespec :=
  {| tv_sec := RTC_TSR h;
     tv_nsec := RTC_TPR h * Z.quot 1000000000 CONFIG_RTC_FREQUENCY |}.

(** The prescaler ticks since second zero that a register file displays. *)
Definition ticks_shown (h : regfile) : Z :=
  RTC_TSR h * CONFIG_RTC_FREQUENCY + RTC_TPR h.

(** What the boot hook does besides register accesses. *)
Definition booted (st : machine) : machine :=
  set_g_rtc_enabled true
    (if CONFIG_RTC_ALARM
     then set_irq_enabled true (set_isr_attached true st)
     else st).

(** Whether a step is a set-alarm call that passed a callback and
    returned OK, and how many such steps a run has. *)
Definition accepts (op : alarm_op) (st : machine) : bool :=
  match op with
  | OpSetAlarm _ (Some _) => fst (alarm_exec op st) =? OK
  | _ => false
  end.

Fixpoint accepted_requests (ops : list alarm_op) (st : machine) : nat :=
  match ops with
  | [] => 0%nat
  | op :: ops' =>
      ((if accepts op st then 1 else 0)
       + accepted_requests ops' (snd (alarm_exec op st)))%nat
  end.

(** [st'] comes from [st] by bus accesses that write the alarm registers
    only; the counter is where free running has taken it meanwhile. *)
Definition beside_clock (st st' : machine) : Prop :=
  clk st' = clk st
  /\ exists l,
       bus st' = bus st ++ l
       /\ forallb alarm_write l = true
       /\ counter_view (hw st')
          = counter_view (hw_ticks (elapsed st (length l)) (hw st)).

End RunVocabulary.

(** A K20 whose counter is running in second 41, with another clock gate
    already open and an oscillator tick before every bus access. *)
Definition regs_warm : regfile := mkRegs 1 41 100 7 0 16 0.

Definition ticking : nat -> nat := fun _ => 1%nat.

Definition warm_boot : machine := power_on regs_warm ticking no_host.




(** [warm_boot] after one high-resolution read, and after two. *)
Definition warm_read1 : machine :=
  mkMachine (mkRegs 1 41 103 7 0 16 0) None false false false false
    [RegRead KINETIS_RTC_TPR 101; RegRead KINETIS_RTC_TSR 41;
     RegRead KINETIS_RTC_TPR 103]
    [] ticking no_host.

Definition warm_read2 : machine :=
  mkMachine (mkRegs 1 41 106 7 0 16 0) None false false false false
    [RegRead KINETIS_RTC_TPR 101; RegRead KINETIS_RTC_TSR 41;
     RegRead KINETIS_RTC_TPR 103; RegRead KINETIS_RTC_TPR 104;
     RegRead KINETIS_RTC_TSR 41; RegRead KINETIS_RTC_TPR 106]
    [] ticking no_host.

(** * Facts about the counter hardware *)

Section HardwareFacts.
Context {chip : Chip}.

Lemma chip_ok_inv :
  chip_ok chip = true ->
  0 < CONFIG_RTC_FREQUENCY < 2 ^ 31
  /\ 0 < RTC_SR_TCE < 2 ^ 32
  /\ 0 < RTC_IER_TAIE < 2 ^ 32
  /\ 0 < EBUSY /\ 0 < ENODATA.
Proof.
  unfold chip_ok, is_uint32.
  rewrite !andb_true_iff, !negb_true_iff, !Z.ltb_lt, !Z.leb_le, !Z.eqb_neq.
  lia.
Qed.

Lemma uint32_small z : 0 <= z < 2 ^ 32 -> uint32 z = z.
Proof. intros H. unfold uint32. now apply Z.mod_small. Qed.

Lemma uint32_range z : 0 <= uint32 z < 2 ^ 32.
Proof. unfold uint32. apply Z.mod_pos_bound. lia. Qed.

Lemma hw_ticks_add a b h :
  hw_ticks (a + b) h = hw_ticks b (hw_ticks a h).
Proof.
  revert h. induction a as [|a IH]; intros h; simpl; [reflexivity|].
  apply IH.
Qed.

Lemma hw_tick_status h : RTC_SR (hw_tick h) = RTC_SR h.
Proof.
  unfold hw_tick. destruct (counting h); [|reflexivity].
  destruct (RTC_TPR h + 1 <? CONFIG_RTC_FREQUENCY); reflexivity.
Qed.

Lemma hw_tick_counting h : counting (hw_tick h) = counting h.
Proof. unfold counting. now rewrite hw_tick_status. Qed.

Lemma hw_ticks_counting n h : counting (hw_ticks n h) = counting h.
Proof.
  revert h. induction n as [|n IH]; intros h; simpl; [reflexivity|].
  now rewrite IH, hw_tick_counting.
Qed.

(** A stopped counter does not move. *)
Lemma hw_ticks_stopped n h : counting h = false -> hw_ticks n h = h.
Proof.
  intros Hc. induction n as [|n IH]; simpl; [reflexivity|].
  unfold hw_tick at 1. now rewrite Hc.
Qed.

(** Ticks touch the prescaler and the seconds register only. *)
Lemma hw_ticks_frame n h :
  SIM_SCGC6 (hw_ticks n h) = SIM_SCGC6 h
  /\ RTC_TAR (hw_ticks n h) = RTC_TAR h
  /\ RTC_CR (hw_ticks n h) = RTC_CR h
  /\ RTC_SR (hw_ticks n h) = RTC_SR h
  /\ RTC_IER (hw_ticks n h) = RTC_IER h.
Proof.
  revert h. induction n as [|n IH]; intros h; simpl; [tauto|].
  destruct (IH (hw_tick h)) as (H1 & H2 & H3 & H4 & H5).
  rewrite H1, H2, H3, H4, H5. unfold hw_tick.
  destruct (counting h); [|tauto].
  destruct (RTC_TPR h + 1 <? CONFIG_RTC_FREQUENCY); simpl; tauto.
Qed.

(** Writes to the registers the counter does not look at commute with
    ticks. *)
Lemma hw_tick_reg_set r v h :
  beside_counter r = true ->
  hw_tick (reg_set r v h) = reg_set r v (hw_tick h).
Proof.
  intros Hr. unfold hw_tick, counting.
  destruct r; try discriminate Hr; simpl;
    destruct (negb (Z.land (RTC_SR h) RTC_SR_TCE =? 0)); try reflexivity;
    destruct (RTC_TPR h + 1 <? CONFIG_RTC_FREQUENCY); reflexivity.
Qed.

Lemma hw_ticks_reg_set n r v h :
  beside_counter r = true ->
  hw_ticks n (reg_set r v h) = reg_set r v (hw_ticks n h).
Proof.
  intros Hr. revert h. induction n as [|n IH]; intros h; simpl;
    [reflexivity|].
  now rewrite hw_tick_reg_set, IH.
Qed.

(** The closed form of a running counter: with [T = TPR + n], the
    prescaler holds [T mod f] and the seconds register has advanced by
    [T / f], modulo 2^32. *)
Lemma hw_ticks_running n : forall h,
  0 < CONFIG_RTC_FREQUENCY ->
  counting h = true ->
  counter_wf h = true ->
  hw_ticks n h =
    reg_set KINETIS_RTC_TPR
      ((RTC_TPR h + Z.of_nat n) mod CONFIG_RTC_FREQUENCY)
      (reg_set KINETIS_RTC_TSR
         (uint32 (RTC_TSR h
                  + (RTC_TPR h + Z.of_nat n) / CONFIG_RTC_FREQUENCY)) h).
Proof.
  induction n as [|n IH]; intros h Hf Hc Hwf;
    unfold counter_wf, is_uint32 in Hwf;
    rewrite !andb_true_iff, !Z.leb_le, !Z.ltb_lt in Hwf.
  - simpl. rewrite Z.add_0_r, Z.mod_small, Z.div_small, Z.add_0_r by lia.
    rewrite uint32_small by lia. destruct h; reflexivity.
  - rewrite Nat2Z.inj_succ. cbn [hw_ticks]. rewrite IH; auto.
    + unfold hw_tick. rewrite Hc.
      destruct (RTC_TPR h + 1 <? CONFIG_RTC_FREQUENCY) eqn:Hlt.
      * destruct h as [a s p t c sr ie].
        cbn [reg_set RTC_TPR RTC_TSR SIM_SCGC6 RTC_TAR RTC_CR RTC_SR RTC_IER].
        replace (p + 1 + Z.of_nat n) with (p + Z.succ (Z.of_nat n)) by lia.
        reflexivity.
      * apply Z.ltb_ge in Hlt.
        assert (Hp : RTC_TPR h = CONFIG_RTC_FREQUENCY - 1) by lia.
        destruct h as [a s p t c sr ie].
        cbn [reg_set RTC_TPR RTC_TSR SIM_SCGC6 RTC_TAR RTC_CR RTC_SR RTC_IER]
          in *.
        subst p.
        replace (CONFIG_RTC_FREQUENCY - 1 + Z.succ (Z.of_nat n))
          with (Z.of_nat n + 1 * CONFIG_RTC_FREQUENCY) by lia.
        rewrite Z_mod_plus_full, Z_div_plus_full by lia.
        rewrite Z.add_0_l.
        f_equal. unfold uint32.
        rewrite Zplus_mod_idemp_l. f_equal. lia.
    + now rewrite hw_tick_counting.
    + unfold hw_tick. rewrite Hc. unfold counter_wf, is_uint32.
      destruct (RTC_TPR h + 1 <? CONFIG_RTC_FREQUENCY) eqn:Hlt.
      * apply Z.ltb_lt in Hlt. destruct h as [a s p t c sr ie].
        cbn [reg_set RTC_TPR RTC_TSR SIM_SCGC6 RTC_TAR RTC_CR RTC_SR RTC_IER]
          in *.
        rewrite !andb_true_iff, !Z.leb_le, !Z.ltb_lt. lia.
      * destruct h as [a s p t c sr ie].
        cbn [reg_set RTC_TPR RTC_TSR SIM_SCGC6 RTC_TAR RTC_CR RTC_SR RTC_IER]
          in *.
        pose proof (uint32_range (s + 1)).
        rewrite !andb_true_iff, !Z.leb_le, !Z.ltb_lt. lia.
Qed.

Lemma counter_wf_inv h :
  counter_wf h = true ->
  0 <= RTC_TPR h < CONFIG_RTC_FREQUENCY /\ 0 <= RTC_TSR h < 2 ^ 32.
Proof.
  unfold counter_wf, is_uint32.
  rewrite !andb_true_iff, !Z.leb_le, !Z.ltb_lt. lia.
Qed.

Lemma wraps_add a b h :
  wraps (a + b) h = (wraps a h + wraps b (hw_ticks a h))%nat.
Proof.
  revert h. induction a as [|a IH]; intros h; [reflexivity|].
  cbn [Nat.add wraps hw_ticks]. rewrite IH. lia.
Qed.

Lemma no_wrap_mono n : forall h,
  wraps n h = 0%nat -> RTC_TPR h <= RTC_TPR (hw_ticks n h).
Proof.
  induction n as [|n IH]; intros h H; cbn [wraps hw_ticks] in *; [lia|].
  destruct (at_wrap h) eqn:Hw; [discriminate|].
  specialize (IH (hw_tick h) H).
  enough (RTC_TPR h <= RTC_TPR (hw_tick h)) by lia.
  unfold at_wrap in Hw. unfold hw_tick.
  destruct (counting h); [|lia]. cbn [andb negb] in Hw.
  destruct (RTC_TPR h + 1 <? CONFIG_RTC_FREQUENCY); [|discriminate].
  destruct h; cbn. lia.
Qed.

(** A running counter has crossed [(TPR + n) / f] second boundaries
    after [n] ticks. *)
Lemma wraps_running n : forall h,
  0 < CONFIG_RTC_FREQUENCY ->
  counting h = true ->
  counter_wf h = true ->
  Z.of_nat (wraps n h) = (RTC_TPR h + Z.of_nat n) / CONFIG_RTC_FREQUENCY.
Proof.
  induction n as [|n IH]; intros h Hf Hc Hwf.
  - destruct (counter_wf_inv _ Hwf) as (Hp & _).
    cbn [wraps]. rewrite Z.add_0_r, Z.div_small; lia.
  - cbn [wraps]. rewrite Nat2Z.inj_add, Nat2Z.inj_succ.
    assert (Hwf' : counter_wf (hw_tick h) = true).
    { change (hw_tick h) with (hw_ticks 1 h).
      rewrite hw_ticks_running by assumption.
      unfold counter_wf, is_uint32. cbn [reg_set RTC_TPR RTC_TSR].
      pose proof (Z.mod_pos_bound (RTC_TPR h + Z.of_nat 1) _ Hf).
      pose proof (uint32_range
        (RTC_TSR h + (RTC_TPR h + Z.of_nat 1) / CONFIG_RTC_FREQUENCY)).
      rewrite !andb_true_iff, !Z.leb_le, !Z.ltb_lt. lia. }
    rewrite IH by (rewrite ?hw_tick_counting; assumption).
    destruct (counter_wf_inv _ Hwf) as (Hp & _).
    unfold at_wrap, hw_tick. rewrite Hc. cbn [andb].
    destruct (RTC_TPR h + 1 <? CONFIG_RTC_FREQUENCY) eqn:Hlt.
    + destruct h as [a s p t c sr ie]. cbn [negb reg_set RTC_TPR].
      cbn [RTC_TPR] in *. change (Z.of_nat 0) with 0.
      rewrite Z.add_0_l. f_equal. lia.
    + apply Z.ltb_ge in Hlt.
      destruct h as [a s p t c sr ie]. cbn [negb reg_set RTC_TPR].
      cbn [RTC_TPR] in *. change (Z.of_nat 1) with 1.
      replace (p + Z.succ (Z.of_nat n))
        with (Z.of_nat n + 1 * CONFIG_RTC_FREQUENCY) by lia.
      rewrite Z_div_plus_full by lia. rewrite Z.add_0_l. lia.
Qed.
End HardwareFacts.

(** * The read path *)

Section ReadFacts.
Context {chip : Chip}.

Lemma issued_app st st' l : bus st' = bus st ++ l -> issued st st' = l.
Proof.
  intros H. unfold issued. rewrite H, skipn_app, skipn_all, Nat.sub_diag.
  reflexivity.
Qed.

Lemma elapsed_shift k st st' i :
  clk st' = clk st ->
  length (bus st') = (length (bus st) + k)%nat ->
  elapsed st (k + i) = (elapsed st k + elapsed st' i)%nat.
Proof.
  intros Hc Hl. induction i as [|i IH].
  - now rewrite Nat.add_0_r, Nat.add_0_r.
  - rewrite Nat.add_succ_r. cbn [elapsed]. rewrite IH, Hc, Hl.
    rewrite !Nat.add_assoc. reflexivity.
Qed.

Lemma elapsed_mono st i j : (i <= j)%nat -> (elapsed st i <= elapsed st j)%nat.
Proof.
  induction 1 as [|j _ IH]; [lia|]. cbn [elapsed]. lia.
Qed.

Lemma after_reads_refl st : after_reads 0 st st.
Proof. constructor; try reflexivity. now rewrite Nat.add_0_r. Qed.

Lemma elapsed_1 st : elapsed st 1 = clk st (length (bus st)).
Proof. cbn [elapsed]. now rewrite Nat.add_0_r. Qed.

Lemma getreg32_after r st :
  after_reads 1 st (snd (getreg32 r st))
  /\ fst (getreg32 r st) = reg_get r (hw_ticks (elapsed st 1) (hw st))
  /\ bus (snd (getreg32 r st))
     = bus st ++ [RegRead r (fst (getreg32 r st))].
Proof.
  rewrite elapsed_1.
  split; [|split; reflexivity].
  constructor; try reflexivity.
  - now rewrite elapsed_1.
  - cbn. now rewrite length_app.
Qed.

Lemma after_reads_trans a b st1 st2 st3 :
  after_reads a st1 st2 -> after_reads b st2 st3 ->
  after_reads (a + b) st1 st3.
Proof.
  intros [] []. constructor; try congruence.
  - rewrite (elapsed_shift a st1 st2 b) by assumption.
    rewrite hw_ticks_add. congruence.
  - lia.
Qed.

Lemma hw_at_shift k st st' i :
  after_reads k st st' ->
  hw_ticks (elapsed st' i) (hw st') = hw_ticks (elapsed st (k + i)) (hw st).
Proof.
  intros []. rewrite (elapsed_shift k st st' i) by assumption.
  rewrite hw_ticks_add. congruence.
Qed.

(** One pass through the loop body: three reads. *)
Lemma loop_body st :
  let st1 := snd (getreg32 KINETIS_RTC_TPR st) in
  let st2 := snd (getreg32 KINETIS_RTC_TSR st1) in
  let st3 := snd (getreg32 KINETIS_RTC_TPR st2) in
  let p1 := fst (getreg32 KINETIS_RTC_TPR st) in
  let s := fst (getreg32 KINETIS_RTC_TSR st1) in
  let p2 := fst (getreg32 KINETIS_RTC_TPR st2) in
  after_reads 3 st st3
  /\ p1 = RTC_TPR (hw_ticks (elapsed st 1) (hw st))
  /\ s = RTC_TSR (hw_ticks (elapsed st 2) (hw st))
  /\ p2 = RTC_TPR (hw_ticks (elapsed st 3) (hw st))
  /\ bus st3 = bus st ++ [RegRead KINETIS_RTC_TPR p1;
                          RegRead KINETIS_RTC_TSR s;
                          RegRead KINETIS_RTC_TPR p2].
Proof.
  intros st1 st2 st3 p1 s p2.
  destruct (getreg32_after KINETIS_RTC_TPR st) as (A1 & V1 & B1).
  destruct (getreg32_after KINETIS_RTC_TSR st1) as (A2 & V2 & B2).
  destruct (getreg32_after KINETIS_RTC_TPR st2) as (A3 & V3 & B3).
  fold st1 in A1, B1. fold st2 in A2, B2. fold st3 in A3, B3.
  fold p1 in V1, B1. fold s in V2, B2. fold p2 in V3, B3.
  pose proof (after_reads_trans _ _ _ _ _ A1 A2) as A12.
  pose proof (after_reads_trans _ _ _ _ _ A12 A3) as A123.
  split; [exact A123|].
  split; [exact V1|].
  split; [rewrite V2, (hw_at_shift 1 st st1 1 A1); reflexivity|].
  split; [rewrite V3, (hw_at_shift 2 st st2 1 A12); reflexivity|].
  rewrite B3, B2, B1, <- !app_assoc. reflexivity.
Qed.

Lemma gettime_loop_sound fuel : forall st s p st',
  gettime_loop fuel st = Some ((s, p), st') ->
  exists j p2 pre,
    (j < fuel)%nat
    /\ after_reads (3 * j + 3) st st'
    /\ p = RTC_TPR (hw_ticks (elapsed st (3 * j + 1)) (hw st))
    /\ s = RTC_TSR (hw_ticks (elapsed st (3 * j + 2)) (hw st))
    /\ p2 = RTC_TPR (hw_ticks (elapsed st (3 * j + 3)) (hw st))
    /\ p <= p2
    /\ bus st' = bus st ++ pre ++ [RegRead KINETIS_RTC_TPR p;
                                   RegRead KINETIS_RTC_TSR s;
                                   RegRead KINETIS_RTC_TPR p2].
Proof.
  induction fuel as [|fuel IH]; intros st s p st' H; [discriminate|].
  cbn [gettime_loop] in H.
  destruct (loop_body st) as (A & V1 & V2 & V3 & B).
  cbv zeta in A, V1, V2, V3, B.
  destruct (getreg32 KINETIS_RTC_TPR st) as [p1 st1]; cbn [fst snd] in *.
  destruct (getreg32 KINETIS_RTC_TSR st1) as [s0 st2]; cbn [fst snd] in *.
  destruct (getreg32 KINETIS_RTC_TPR st2) as [p2 st3]; cbn [fst snd] in *.
  destruct (p1 >? p2) eqn:Hgt.
  - destruct (IH _ _ _ _ H) as (j & q2 & pre & Hj & A' & W1 & W2 & W3 & Hle & B').
    exists (S j), q2, ([RegRead KINETIS_RTC_TPR p1;
                        RegRead KINETIS_RTC_TSR s0;
                        RegRead KINETIS_RTC_TPR p2] ++ pre).
    rewrite (hw_at_shift 3 st st3 _ A) in W1.
    rewrite (hw_at_shift 3 st st3 _ A) in W2.
    rewrite (hw_at_shift 3 st st3 _ A) in W3.
    replace (3 * S j + 1)%nat with (3 + (3 * j + 1))%nat by lia.
    replace (3 * S j + 2)%nat with (3 + (3 * j + 2))%nat by lia.
    replace (3 * S j + 3)%nat with (3 + (3 * j + 3))%nat by lia.
    split; [lia|].
    split; [apply (after_reads_trans _ _ _ _ _ A A')|].
    do 4 (split; [assumption|]).
    rewrite B', B, <- !app_assoc. reflexivity.
  - injection H as -> -> ->.
    exists 0%nat, p2, []. cbn [Nat.mul Nat.add].
    split; [lia|].
    do 4 (split; [assumption|]).
    split; [|exact B].
    rewrite Z.gtb_ltb, Z.ltb_ge in Hgt. exact Hgt.
Qed.

Lemma elapsed_ext st st' i :
  clk st' = clk st -> length (bus st') = length (bus st) ->
  elapsed st' i = elapsed st i.
Proof.
  intros Hc Hl. induction i as [|i IH]; cbn [elapsed]; [reflexivity|].
  now rewrite IH, Hc, Hl.
Qed.

(** The arithmetic heart of the re-read loop.  The prescaler is read at
    tick [d1] and again at [d3], the seconds in between at [d2]; if the
    second prescaler reading is not below the first, then the first
    reading and the seconds reading were both on display at one instant
    [n] of the window. *)
Lemma existed_between f a d1 d2 d3 :
  0 < f -> 0 <= a < f -> 0 <= d1 <= d2 -> d2 <= d3 ->
  (a + d1) mod f <= (a + d3) mod f ->
  exists n, d1 <= n <= d3
    /\ (a + n) mod f = (a + d1) mod f
    /\ (a + n) / f = (a + d2) / f.
Proof.
  intros Hf Ha H12 H23 Hle.
  pose proof (Z.div_mod (a + d1) f ltac:(lia)) as E1.
  pose proof (Z.div_mod (a + d2) f ltac:(lia)) as E2.
  pose proof (Z.div_mod (a + d3) f ltac:(lia)) as E3.
  pose proof (Z.mod_pos_bound (a + d1) f Hf) as R1.
  pose proof (Z.mod_pos_bound (a + d2) f Hf) as R2.
  pose proof (Z.mod_pos_bound (a + d3) f Hf) as R3.
  assert (Q12 : (a + d1) / f <= (a + d2) / f)
    by (apply Z.div_le_mono; lia).
  assert (Q23 : (a + d2) / f <= (a + d3) / f)
    by (apply Z.div_le_mono; lia).
  set (q1 := (a + d1) / f) in *. set (q2 := (a + d2) / f) in *.
  set (q3 := (a + d3) / f) in *. set (p1 := (a + d1) mod f) in *.
  set (p3 := (a + d3) mod f) in *.
  exists (f * q2 + p1 - a).
  replace (a + (f * q2 + p1 - a)) with (f * q2 + p1) by lia.
  split; [nia|]. split.
  - symmetry. apply (Z.mod_unique_pos _ _ q2); [lia|reflexivity].
  - symmetry. apply (Z.div_unique_pos _ _ q2 p1); [lia|reflexivity].
Qed.

Lemma nsec_in_range p :
  0 < CONFIG_RTC_FREQUENCY ->
  0 <= p < CONFIG_RTC_FREQUENCY ->
  0 <= p * Z.quot 1000000000 CONFIG_RTC_FREQUENCY < 1000000000.
Proof.
  intros Hf Hp. rewrite Z.quot_div_nonneg by lia.
  assert (Hnz : CONFIG_RTC_FREQUENCY <> 0) by lia.
  pose proof (Z.div_mod 1000000000 _ Hnz) as E.
  pose proof (Z.mod_pos_bound 1000000000 _ Hf) as R.
  assert (0 <= 1000000000 / CONFIG_RTC_FREQUENCY)
    by (apply Z.div_pos; lia).
  nia.
Qed.

Lemma to_long_small z : - 2 ^ 31 <= z < 2 ^ 31 -> to_long z = z.
Proof.
  intros H. unfold to_long. rewrite Z.mod_small; lia.
Qed.

(** C1.  The high-resolution read does not tear.  On every schedule of
    oscillator ticks between the register reads, wraps of the prescaler
    included, a call of [up_rtc_gettime] that returns hands back a
    (seconds, fraction) pair the counter really displayed: there is an
    instant [n], not before the first prescaler read of the accepted
    iteration and not after its last read, at which the seconds register
    held [tv_sec] and the prescaler held the fraction that [tv_nsec] was
    computed from.  The accepted iteration is the one whose second
    prescaler reading is not below the first, and the nanoseconds stay
    below one second. *)
Theorem gettime_no_tear fuel st r tp st' :
  chip_ok chip = true ->
  counter_wf (hw st) = true ->
  up_rtc_gettime fuel st = Some ((r, tp), st') ->
  exists j n p2 pre,
    (j < fuel)%nat
    /\ (elapsed st (3 * j + 1) <= n <= elapsed st (3 * j + 3))%nat
    /\ tv_sec tp = RTC_TSR (hw_ticks n (hw st))
    /\ tv_nsec tp = RTC_TPR (hw_ticks n (hw st))
                    * Z.quot 1000000000 CONFIG_RTC_FREQUENCY
    /\ 0 <= tv_nsec tp < 1000000000
    /\ hw st' = hw_ticks (elapsed st (3 * j + 3)) (hw st)
    /\ issued st st' =
         pre ++ [RegRead KINETIS_RTC_TPR (RTC_TPR (hw_ticks n (hw st)));
                 RegRead KINETIS_RTC_TSR (tv_sec tp);
                 RegRead KINETIS_RTC_TPR p2]
    /\ RTC_TPR (hw_ticks n (hw st)) <= p2
    /\ r = OK.
Proof.
  intros Hok Hwf H.
  destruct (chip_ok_inv Hok) as (Hf & _).
  destruct (counter_wf_inv _ Hwf) as (Hp & Hs).
  unfold up_rtc_gettime, enter_critical_section, leave_critical_section in H.
  destruct (gettime_loop fuel (set_irq_masked true st))
    as [[[s p] st3]|] eqn:Hloop; [|discriminate].
  injection H as <- <- <-. cbn [tv_sec tv_nsec].
  destruct (gettime_loop_sound _ _ _ _ _ Hloop)
    as (j & p2 & pre & Hj & A & V1 & V2 & V3 & Hle & B).
  rewrite !(elapsed_ext st (set_irq_masked true st)) in * by reflexivity.
  change (hw (set_irq_masked true st)) with (hw st) in *.
  change (bus (set_irq_masked true st)) with (bus st) in *.
  set (d1 := elapsed st (3 * j + 1)) in *.
  set (d2 := elapsed st (3 * j + 2)) in *.
  set (d3 := elapsed st (3 * j + 3)) in *.
  assert (D12 : (d1 <= d2)%nat) by (apply elapsed_mono; lia).
  assert (D23 : (d2 <= d3)%nat) by (apply elapsed_mono; lia).
  assert (Hn : exists n, (d1 <= n <= d3)%nat
             /\ RTC_TSR (hw_ticks n (hw st)) = s
             /\ RTC_TPR (hw_ticks n (hw st)) = p
             /\ 0 <= p < CONFIG_RTC_FREQUENCY).
  { destruct (counting (hw st)) eqn:Hc.
    - rewrite (hw_ticks_running d1), (hw_ticks_running d2),
        (hw_ticks_running d3) in * by (assumption || lia).
      cbn [reg_set RTC_TPR RTC_TSR] in V1, V2, V3.
      destruct (existed_between CONFIG_RTC_FREQUENCY (RTC_TPR (hw st))
                  (Z.of_nat d1) (Z.of_nat d2) (Z.of_nat d3))
        as (n & Hn & Hm & Hd); try lia.
      exists (Z.to_nat n).
      rewrite (hw_ticks_running (Z.to_nat n)) by (assumption || lia).
      cbn [reg_set RTC_TPR RTC_TSR].
      rewrite Z2Nat.id by lia. rewrite Hm, Hd.
      split; [lia|]. split; [congruence|]. split; [congruence|].
      subst p. apply Z.mod_pos_bound. lia.
    - rewrite !(hw_ticks_stopped _ _ Hc) in *.
      exists d1. rewrite (hw_ticks_stopped _ _ Hc).
      split; [lia|]. split; [congruence|]. split; [congruence|].
      subst p. exact Hp. }
  destruct Hn as (n & Hn & Es & Ep & Rp).
  pose proof (nsec_in_range p (proj1 Hf) Rp) as Rn.
  exists j, n, p2, pre.
  rewrite Es, Ep.
  rewrite uint32_small, to_long_small by lia.
  split; [exact Hj|]. split; [exact Hn|].
  do 3 (split; [reflexivity || assumption|]).
  split.
  { change (hw st3 = hw_ticks (elapsed st (3 * j + 3)) (hw st)).
    rewrite (ar_hw _ _ _ A).
    now rewrite (elapsed_ext st (set_irq_masked true st)). }
  split; [apply issued_app; exact B|].
  split; [exact Hle|reflexivity].
Qed.

(** *** Termination of the re-read loop *)

Lemma reread_wraps_shift st st3 j :
  after_reads 3 st st3 -> reread_wraps st3 j = reread_wraps st (S j).
Proof.
  intros A. unfold reread_wraps.
  replace (3 * S j + 3)%nat with (3 + (3 * j + 3))%nat by lia.
  replace (3 * S j + 1)%nat with (3 + (3 * j + 1))%nat by lia.
  rewrite <- (hw_at_shift 3 st st3 _ A).
  rewrite !(elapsed_shift 3 st st3) by apply A.
  f_equal. lia.
Qed.

Lemma gettime_loop_exits j : forall st,
  reread_wraps st j = 0%nat ->
  exists res, gettime_loop (S j) st = Some res.
Proof.
  induction j as [|j IH]; intros st H; cbn [gettime_loop].
  - destruct (loop_body st) as (A & V1 & V2 & V3 & B).
    cbv zeta in A, V1, V2, V3, B.
    destruct (getreg32 KINETIS_RTC_TPR st) as [p1 st1]; cbn [fst snd] in *.
    destruct (getreg32 KINETIS_RTC_TSR st1) as [s0 st2]; cbn [fst snd] in *.
    destruct (getreg32 KINETIS_RTC_TPR st2) as [p2 st3]; cbn [fst snd] in *.
    unfold reread_wraps in H. cbn [Nat.mul Nat.add] in H.
    apply no_wrap_mono in H. rewrite <- hw_ticks_add in H.
    replace (elapsed st 1 + (elapsed st 3 - elapsed st 1))%nat
      with (elapsed st 3) in H
      by (pose proof (elapsed_mono st 1 3); lia).
    rewrite <- V1, <- V3 in H.
    destruct (p1 >? p2) eqn:Hgt; [|eauto].
    rewrite Z.gtb_ltb, Z.ltb_lt in Hgt. lia.
  - destruct (loop_body st) as (A & _).
    cbv zeta in A.
    destruct (getreg32 KINETIS_RTC_TPR st) as [p1 st1]; cbn [fst snd] in *.
    destruct (getreg32 KINETIS_RTC_TSR st1) as [s0 st2]; cbn [fst snd] in *.
    destruct (getreg32 KINETIS_RTC_TPR st2) as [p2 st3]; cbn [fst snd] in *.
    destruct (p1 >? p2); [|eauto].
    apply IH. now rewrite (reread_wraps_shift st st3 j A).
Qed.

(** C9, amended.  If some iteration [j] of the re-read loop sees no
    prescaler wrap between its first and its second prescaler read, the
    loop exits within [j + 1] iterations, [up_rtc_gettime] returns OK,
    and the pair of prescaler readings it accepted is non-decreasing. *)
Theorem gettime_terminates st j :
  reread_wraps st j = 0%nat ->
  exists tp st' pre p1 p2,
    up_rtc_gettime (S j) st = Some ((OK, tp), st')
    /\ issued st st' =
         pre ++ [RegRead KINETIS_RTC_TPR p1;
                 RegRead KINETIS_RTC_TSR (tv_sec tp);
                 RegRead KINETIS_RTC_TPR p2]
    /\ p1 <= p2.
Proof.
  intros H.
  assert (H0 : reread_wraps (set_irq_masked true st) j = 0%nat).
  { unfold reread_wraps in *.
    rewrite !(elapsed_ext st (set_irq_masked true st)) by reflexivity.
    exact H. }
  destruct (gettime_loop_exits j _ H0) as ([[s p] st3] & Hloop).
  destruct (gettime_loop_sound _ _ _ _ _ Hloop)
    as (i & p2 & pre & _ & _ & _ & _ & _ & Hle & B).
  unfold up_rtc_gettime, enter_critical_section, leave_critical_section.
  rewrite Hloop.
  eexists _, _, pre, p, p2.
  split; [reflexivity|]. split; [|exact Hle].
  apply issued_app. exact B.
Qed.
Lemma gettime_loop_more_fuel fuel : forall st res,
  gettime_loop fuel st = Some res -> gettime_loop (S fuel) st = Some res.
Proof.
  induction fuel as [|fuel IH]; intros st res H; [discriminate|].
  remember (S fuel) as n eqn:En.
  cbn [gettime_loop]. rewrite En in H. cbn [gettime_loop] in H.
  destruct (getreg32 KINETIS_RTC_TPR st) as [p1 st1].
  destruct (getreg32 KINETIS_RTC_TSR st1) as [s0 st2].
  destruct (getreg32 KINETIS_RTC_TPR st2) as [p2 st3].
  destruct (p1 >? p2); [|exact H].
  now apply IH.
Qed.

Lemma reread_le_iteration st j :
  (reread_wraps st j <= iteration_wraps st j)%nat.
Proof.
  unfold reread_wraps, iteration_wraps.
  pose proof (elapsed_mono st (3 * j) (3 * j + 1) ltac:(lia)) as H1.
  pose proof (elapsed_mono st (3 * j + 1) (3 * j + 3) ltac:(lia)) as H2.
  replace (elapsed st (3 * j + 3) - elapsed st (3 * j))%nat
    with ((elapsed st (3 * j + 1) - elapsed st (3 * j))
          + (elapsed st (3 * j + 3) - elapsed st (3 * j + 1)))%nat by lia.
  rewrite wraps_add, <- hw_ticks_add.
  replace (elapsed st (3 * j)
           + (elapsed st (3 * j + 1) - elapsed st (3 * j)))%nat
    with (elapsed st (3 * j + 1)) by lia.
  lia.
Qed.

(** If the counter wraps at most once over the first two iterations, the
    loop is done after two. *)
Lemma gettime_two_iterations st :
  (iteration_wraps st 0 + iteration_wraps st 1 <= 1)%nat ->
  exists tp st', up_rtc_gettime 2 st = Some ((OK, tp), st').
Proof.
  intros H.
  pose proof (reread_le_iteration st 0) as L0.
  pose proof (reread_le_iteration st 1) as L1.
  assert (E : forall i, elapsed (set_irq_masked true st) i = elapsed st i)
    by (intros i; now apply elapsed_ext).
  assert (Hj : reread_wraps (set_irq_masked true st) 0 = 0%nat
               \/ reread_wraps (set_irq_masked true st) 1 = 0%nat).
  { unfold reread_wraps. rewrite !E.
    change (hw (set_irq_masked true st)) with (hw st).
    fold (reread_wraps st 0). fold (reread_wraps st 1). lia. }
  assert (L : exists res, gettime_loop 2 (set_irq_masked true st) = Some res).
  { destruct Hj as [Hj|Hj].
    - destruct (gettime_loop_exits 0 _ Hj) as (res & R).
      exists res. now apply gettime_loop_more_fuel.
    - now apply gettime_loop_exits. }
  destruct L as ([[s p] st3] & L).
  unfold up_rtc_gettime, enter_critical_section, leave_critical_section.
  rewrite L. eauto.
Qed.
End ReadFacts.

(** * The write path *)

Section WriteFacts.
Context {chip : Chip}.

Lemma elapsed_S st i :
  elapsed st (S i) = (elapsed st i + clk st (length (bus st) + i))%nat.
Proof. reflexivity. Qed.

Lemma elapsed_2 st :
  elapsed st 2
  = (clk st (length (bus st)) + clk st (length (bus st) + 1))%nat.
Proof. cbn [elapsed]. now rewrite Nat.add_0_r. Qed.

#[local] Arguments hw_ticks : simpl never.
#[local] Arguments uint32 : simpl never.
#[local] Arguments elapsed : simpl never.
#[local] Arguments reg_set : simpl never.

Lemma uint32_0 : uint32 0 = 0.
Proof. reflexivity. Qed.

Lemma uint32_idem z : uint32 (uint32 z) = uint32 z.
Proof. apply uint32_small, uint32_range. Qed.

Lemma counting_cleared h : counting (reg_set KINETIS_RTC_SR (uint32 0) h) = false.
Proof. reflexivity. Qed.

Lemma counting_reg_set r v h :
  r <> KINETIS_RTC_SR -> counting (reg_set r v h) = counting h.
Proof. intros Hr. destruct r; try reflexivity. congruence. Qed.

(** What [up_rtc_settime] leaves in the registers and on the bus.  Once
    the status register is cleared the counter stands still, so the
    ticks that fall between the later writes change nothing. *)
Lemma settime_run st tp :
  let seconds := uint32 (tv_sec tp) in
  let prescaler :=
    uint32 (tv_nsec tp * Z.quot CONFIG_RTC_FREQUENCY 1000000000) in
  let st' := snd (up_rtc_settime tp st) in
  hw st' =
    reg_set KINETIS_RTC_SR (uint32 RTC_SR_TCE)
      (reg_set KINETIS_RTC_TSR seconds
         (reg_set KINETIS_RTC_TPR prescaler
            (reg_set KINETIS_RTC_SR 0
               (hw_ticks (elapsed st 1) (hw st)))))
  /\ bus st' =
       bus st ++ [RegWrite KINETIS_RTC_SR 0;
                  RegWrite KINETIS_RTC_TPR prescaler;
                  RegWrite KINETIS_RTC_TSR seconds;
                  RegWrite KINETIS_RTC_SR (uint32 RTC_SR_TCE)]
  /\ clk st' = clk st
  /\ irq_masked st' = irq_masked st
  /\ g_alarmcb st' = g_alarmcb st
  /\ fst (up_rtc_settime tp st) = OK.
Proof.
  rewrite elapsed_1.
  unfold up_rtc_settime, bind, putreg32, enter_critical_section,
    leave_critical_section, ret, elapse. simpl.
  rewrite !uint32_idem.
  rewrite !hw_ticks_stopped
    by (repeat (rewrite ?hw_ticks_counting;
                rewrite ?counting_reg_set by discriminate);
        apply counting_cleared).
  rewrite <- !app_assoc. simpl. change (uint32 0) with 0.
  repeat split; reflexivity.
Qed.

(** C4.  Every call of [up_rtc_settime] puts exactly four writes on the
    bus, in this order: the status register is cleared (counter
    stopped), the prescaler is written, the seconds register is written,
    the status register gets the counter-enable bit back.  The prescaler
    write comes before the seconds write, and because the counter stands
    still in between, both registers hold the written values when the
    call returns. *)
Theorem settime_write_order st tp :
  let seconds := uint32 (tv_sec tp) in
  let prescaler :=
    uint32 (tv_nsec tp * Z.quot CONFIG_RTC_FREQUENCY 1000000000) in
  let st' := snd (up_rtc_settime tp st) in
  issued st st' =
    [RegWrite KINETIS_RTC_SR 0;
     RegWrite KINETIS_RTC_TPR prescaler;
     RegWrite KINETIS_RTC_TSR seconds;
     RegWrite KINETIS_RTC_SR (uint32 RTC_SR_TCE)]
  /\ RTC_TPR (hw st') = prescaler
  /\ RTC_TSR (hw st') = seconds
  /\ RTC_SR (hw st') = uint32 RTC_SR_TCE
  /\ irq_masked st' = irq_masked st
  /\ fst (up_rtc_settime tp st) = OK.
Proof.
  destruct (settime_run st tp) as (H & B & _ & Hm & _ & R).
  cbv zeta in *.
  split; [apply issued_app; exact B|].
  rewrite H. repeat split; assumption.
Qed.

Lemma settime_restarts_counter st tp :
  chip_ok chip = true ->
  counting (hw (snd (up_rtc_settime tp st))) = true.
Proof.
  intros Hok. destruct (chip_ok_inv Hok) as (_ & Hce & _).
  destruct (settime_run st tp) as (H & _). cbv zeta in H. rewrite H.
  unfold counting, reg_set. simpl.
  rewrite uint32_small, Z.land_diag by lia.
  apply negb_true_iff, Z.eqb_neq. lia.
Qed.

(** The seconds survive a write followed by a read, in both read paths,
    when no tick falls before the reads. *)
Lemma settime_then_time st tp :
  clk st (length (bus st) + 4) = 0%nat ->
  fst (up_rtc_time (snd (up_rtc_settime tp st))) = uint32 (tv_sec tp).
Proof.
  intros Hclk. destruct (settime_run st tp) as (H & B & C & _).
  cbv zeta in *. set (st1 := snd (up_rtc_settime tp st)) in *.
  unfold up_rtc_time, getreg32, elapse. cbn [fst set_hw hw].
  rewrite C, B, length_app. simpl length. rewrite Hclk, H.
  reflexivity.
Qed.

Lemma gettime_still st :
  (forall i, (i < 3)%nat -> clk st (length (bus st) + i) = 0%nat) ->
  exists st',
    up_rtc_gettime 1 st =
      Some ((OK,
             {| tv_sec := RTC_TSR (hw st);
                tv_nsec :=
                  to_long
                    (uint32 (RTC_TPR (hw st)
                             * Z.quot 1000000000 CONFIG_RTC_FREQUENCY)) |}),
            st').
Proof.
  intros Hclk.
  unfold up_rtc_gettime, enter_critical_section, leave_critical_section.
  cbn [gettime_loop].
  assert (E : forall k, (k <= 3)%nat ->
            elapsed (set_irq_masked true st) k = 0%nat).
  { intros k Hk. induction k as [|k IH]; [reflexivity|].
    rewrite elapsed_S, IH by lia. apply Hclk. lia. }
  destruct (loop_body (set_irq_masked true st)) as (_ & V1 & V2 & V3 & _).
  cbv zeta in V1, V2, V3. rewrite !E in * by lia.
  change (hw (set_irq_masked true st)) with (hw st) in *.
  change (hw_ticks 0 (hw st)) with (hw st) in *.
  clear E. generalize dependent (set_irq_masked true st).
  intros s1 V1 V2 V3.
  destruct (getreg32 KINETIS_RTC_TPR s1) as [p1 st1]; cbn [fst snd] in *.
  destruct (getreg32 KINETIS_RTC_TSR st1) as [s0 st2]; cbn [fst snd] in *.
  destruct (getreg32 KINETIS_RTC_TPR st2) as [p2 st3]; cbn [fst snd] in *.
  subst p1 s0 p2. rewrite Z.gtb_ltb, Z.ltb_irrefl. eauto.
Qed.

Lemma settime_then_gettime st tp :
  (forall i, (i < 3)%nat -> clk st (length (bus st) + 4 + i) = 0%nat) ->
  exists st2,
    up_rtc_gettime 1 (snd (up_rtc_settime tp st)) =
      Some ((OK,
             {| tv_sec := uint32 (tv_sec tp);
                tv_nsec :=
                  to_long
                    (uint32
                       (uint32 (tv_nsec tp
                                * Z.quot CONFIG_RTC_FREQUENCY 1000000000)
                        * Z.quot 1000000000 CONFIG_RTC_FREQUENCY)) |}),
            st2).
Proof.
  intros Hclk. destruct (settime_run st tp) as (H & B & C & _).
  cbv zeta in *.
  destruct (gettime_still (snd (up_rtc_settime tp st))) as (st2 & G).
  { intros i Hi. rewrite C, B, length_app. now apply Hclk. }
  exists st2. rewrite G, H. reflexivity.
Qed.

(** With an oscillator slower than 1 GHz the factor
    [CONFIG_RTC_FREQUENCY / 1000000000] is zero, and so is every
    prescaler value the write path computes. *)
Lemma settime_prescaler_zero st tp :
  0 < CONFIG_RTC_FREQUENCY < 1000000000 ->
  RTC_TPR (hw (snd (up_rtc_settime tp st))) = 0.
Proof.
  intros Hf. destruct (settime_run st tp) as (H & _). cbv zeta in H.
  rewrite H. unfold reg_set. simpl.
  rewrite Z.quot_small, Z.mul_0_r by lia. reflexivity.
Qed.
End WriteFacts.

(** * The alarm slot *)

Section AlarmFacts.
Context {chip : Chip}.

#[local] Arguments hw_ticks : simpl never.
#[local] Arguments uint32 : simpl never.
#[local] Arguments elapsed : simpl never.
#[local] Arguments reg_set : simpl never.

Lemma setalarm_when_busy st tp callback :
  g_alarmcb st <> None ->
  kinetis_rtc_setalarm tp callback st = (- EBUSY, st).
Proof.
  intros Hcb. unfold kinetis_rtc_setalarm, ret.
  destruct (g_alarmcb st); [reflexivity|congruence].
Qed.

Lemma setalarm_when_idle st tp callback :
  chip_ok chip = true ->
  g_alarmcb st = None ->
  let st' := snd (kinetis_rtc_setalarm tp callback st) in
  fst (kinetis_rtc_setalarm tp callback st) = OK
  /\ g_alarmcb st' = callback
  /\ RTC_TAR (hw st') = uint32 (tv_sec tp)
  /\ RTC_IER (hw st') = RTC_IER_TAIE
  /\ alarm_armed st' = true
  /\ issued st st' =
       [RegWrite KINETIS_RTC_TAR (uint32 (tv_sec tp));
        RegWrite KINETIS_RTC_IER RTC_IER_TAIE]
  /\ RTC_SR (hw st') = RTC_SR (hw st)
  /\ RTC_CR (hw st') = RTC_CR (hw st)
  /\ RTC_TSR (hw st') = RTC_TSR (hw_ticks (elapsed st 2) (hw st))
  /\ RTC_TPR (hw st') = RTC_TPR (hw_ticks (elapsed st 2) (hw st))
  /\ fired st' = fired st.
Proof.
  intros Hok Hcb. destruct (chip_ok_inv Hok) as (_ & _ & Hie & _).
  unfold kinetis_rtc_setalarm. rewrite Hcb.
  unfold bind, putreg32, ret, elapse, alarm_armed. simpl.
  rewrite (uint32_small RTC_IER_TAIE) by lia.
  rewrite length_app. simpl length.
  rewrite !hw_ticks_reg_set by reflexivity.
  rewrite <- hw_ticks_add, <- elapsed_2.
  destruct (hw_ticks_frame (elapsed st 2) (hw st))
    as (_ & _ & Hcr & Hsr & _).
  unfold reg_set. simpl. rewrite Z.land_diag.
  repeat split; try reflexivity; try assumption.
  - apply negb_true_iff, Z.eqb_neq. lia.
  - apply issued_app. simpl. now rewrite <- app_assoc.
Qed.

(** C5.  [kinetis_rtc_setalarm] on an occupied slot returns [-EBUSY]
    and leaves the whole machine as it was: callback, registers, bus
    trace.  On an empty slot it returns OK, stores the callback, writes
    the target seconds to the compare register and then the alarm
    enable to the interrupt-enable register, and writes nothing else:
    the status and control registers are untouched and the counter
    registers are those of a counter left to run. *)
Theorem setalarm_busy_or_arms st tp callback :
  chip_ok chip = true ->
  (g_alarmcb st <> None ->
     kinetis_rtc_setalarm tp callback st = (- EBUSY, st)
     /\ - EBUSY <> OK)
  /\ (g_alarmcb st = None ->
      let st' := snd (kinetis_rtc_setalarm tp callback st) in
      fst (kinetis_rtc_setalarm tp callback st) = OK
      /\ g_alarmcb st' = callback
      /\ RTC_TAR (hw st') = uint32 (tv_sec tp)
      /\ RTC_IER (hw st') = RTC_IER_TAIE
      /\ alarm_armed st' = true
      /\ issued st st' =
           [RegWrite KINETIS_RTC_TAR (uint32 (tv_sec tp));
            RegWrite KINETIS_RTC_IER RTC_IER_TAIE]
      /\ existsb (writes_to KINETIS_RTC_SR) (issued st st') = false
      /\ existsb (writes_to KINETIS_RTC_CR) (issued st st') = false
      /\ RTC_SR (hw st') = RTC_SR (hw st)
      /\ RTC_CR (hw st') = RTC_CR (hw st)
      /\ RTC_TSR (hw st') = RTC_TSR (hw_ticks (elapsed st 2) (hw st))
      /\ RTC_TPR (hw st') = RTC_TPR (hw_ticks (elapsed st 2) (hw st))
      /\ fired st' = fired st).
Proof.
  intros Hok. split.
  - intros Hcb. split; [now apply setalarm_when_busy|].
    destruct (chip_ok_inv Hok) as (_ & _ & _ & Hbusy & _).
    unfold OK. lia.
  - intros Hcb.
    destruct (setalarm_when_idle st tp callback Hok Hcb)
      as (R & G & Ta & Ie & Ar & B & Rest).
    cbv zeta in *. rewrite B.
    do 6 (split; [assumption || reflexivity|]).
    do 2 (split; [reflexivity|]). exact Rest.
Qed.

Lemma getreg32_keeps r st :
  g_alarmcb (snd (getreg32 r st)) = g_alarmcb st
  /\ RTC_IER (hw (snd (getreg32 r st))) = RTC_IER (hw st).
Proof.
  unfold getreg32, elapse. simpl.
  destruct (hw_ticks_frame (clk st (length (bus st))) (hw st))
    as (_ & _ & _ & _ & H).
  split; [reflexivity|exact H].
Qed.

Lemma putreg32_keeps v r st :
  g_alarmcb (snd (putreg32 v r st)) = g_alarmcb st
  /\ RTC_IER (hw (snd (putreg32 v r st))) =
       match r with
       | KINETIS_RTC_IER => uint32 v
       | _ => RTC_IER (hw st)
       end.
Proof.
  unfold putreg32, elapse. simpl.
  destruct (hw_ticks_frame (clk st (length (bus st))) (hw st))
    as (_ & _ & _ & _ & H).
  split; [reflexivity|]. unfold reg_set. destruct r; simpl; congruence.
Qed.

(** Walk through a sequence of register accesses, keeping for each what
    it does to the callback and to the interrupt-enable register. *)
Ltac settled s :=
  lazymatch s with
  | context [putreg32 _ _ _] => fail
  | context [getreg32 _ _] => fail
  | _ => idtac
  end.

Ltac step_access :=
  match goal with
  | |- context [getreg32 ?r ?s] =>
      settled s;
      let K := fresh "K" in
      pose proof (getreg32_keeps r s) as K;
      destruct (getreg32 r s); cbn [fst snd] in K; destruct K
  | |- context [putreg32 ?v ?r ?s] =>
      settled s;
      let K := fresh "K" in
      pose proof (putreg32_keeps v r s) as K;
      destruct (putreg32 v r s); cbn [fst snd] in K; destruct K
  end.

(** The boot hook leaves the slot empty and the alarm interrupt off. *)
Lemma initialized_idle boot :
  g_alarmcb boot = None ->
  g_alarmcb (initialized boot) = None
  /\ RTC_IER (hw (initialized boot)) = 0.
Proof.
  intros Hb.
  unfold initialized, up_rtc_initialize, bind, irq_attach, up_enable_irq,
    ret.
  destruct CONFIG_RTC_ALARM; repeat step_access;
    cbn [snd g_alarmcb hw set_g_rtc_enabled set_isr_attached
           set_irq_enabled] in *;
    rewrite ?uint32_0 in *; split; congruence.
Qed.

(** C6.  [kinetis_rtc_cancelalarm] on an empty slot returns [-ENODATA]
    and changes nothing.  On an occupied slot it returns OK, clears the
    callback and writes zero to the interrupt-enable register, leaving
    the compare register as it was.  On a fresh machine, before or after
    the boot hook, it returns [-ENODATA]. *)
Theorem cancelalarm_noalarm_or_disarms st :
  chip_ok chip = true ->
  (g_alarmcb st = None ->
     kinetis_rtc_cancelalarm st = (- ENODATA, st)
     /\ - ENODATA <> OK)
  /\ (g_alarmcb st <> None ->
      let st' := snd (kinetis_rtc_cancelalarm st) in
      fst (kinetis_rtc_cancelalarm st) = OK
      /\ g_alarmcb st' = None
      /\ RTC_IER (hw st') = 0
      /\ alarm_armed st' = false
      /\ RTC_TAR (hw st') = RTC_TAR (hw st)
      /\ issued st st' = [RegWrite KINETIS_RTC_IER 0]
      /\ fired st' = fired st)
  /\ (forall boot, g_alarmcb boot = None ->
      fst (kinetis_rtc_cancelalarm boot) = - ENODATA
      /\ fst (kinetis_rtc_cancelalarm (initialized boot)) = - ENODATA).
Proof.
  intros Hok. destruct (chip_ok_inv Hok) as (_ & _ & _ & _ & Hnd).
  split; [|split].
  - intros Hcb. unfold kinetis_rtc_cancelalarm, ret. rewrite Hcb.
    split; [reflexivity|]. unfold OK. lia.
  - intros Hcb. unfold kinetis_rtc_cancelalarm.
    destruct (g_alarmcb st) as [f|] eqn:E; [clear Hcb|congruence].
    unfold bind, putreg32, ret, elapse, alarm_armed. simpl.
    destruct (hw_ticks_frame (clk st (length (bus st))) (hw st))
      as (_ & Htar & _).
    unfold reg_set. simpl. rewrite uint32_0.
    repeat split; try reflexivity; try assumption.
    apply issued_app. reflexivity.
  - intros boot Hb. unfold kinetis_rtc_cancelalarm.
    rewrite Hb.
    destruct (initialized_idle boot Hb) as (G & _).
    rewrite G. split; reflexivity.
Qed.

(** The alarm entry points log no callback and only append to the bus. *)
Lemma setalarm_frame tp callback st :
  fired (snd (kinetis_rtc_setalarm tp callback st)) = fired st
  /\ exists l, bus (snd (kinetis_rtc_setalarm tp callback st)) = bus st ++ l.
Proof.
  unfold kinetis_rtc_setalarm.
  destruct (g_alarmcb st).
  - split; [reflexivity|]. exists []. now rewrite app_nil_r.
  - split; [reflexivity|]. unfold bind, putreg32, ret, elapse. simpl.
    rewrite <- app_assoc. eauto.
Qed.

Lemma cancelalarm_frame st :
  fired (snd (kinetis_rtc_cancelalarm st)) = fired st
  /\ exists l, bus (snd (kinetis_rtc_cancelalarm st)) = bus st ++ l.
Proof.
  unfold kinetis_rtc_cancelalarm.
  destruct (g_alarmcb st).
  - split; [reflexivity|]. unfold bind, putreg32, ret, elapse. simpl. eauto.
  - split; [reflexivity|]. exists []. now rewrite app_nil_r.
Qed.

Lemma host_run_cons c body st :
  host_run (c :: body) st = host_run body (snd (host_step c st)).
Proof.
  cbn [host_run]. unfold bind. now destruct (host_step c st).
Qed.

Lemma host_step_frame c st :
  fired (snd (host_step c st)) = fired st
  /\ exists l, bus (snd (host_step c st)) = bus st ++ l.
Proof.
  destruct c as [tp cb|]; cbn [host_step]; unfold bind, ret.
  - pose proof (setalarm_frame tp cb st) as F.
    now destruct (kinetis_rtc_setalarm tp cb st).
  - pose proof (cancelalarm_frame st) as F.
    now destruct (kinetis_rtc_cancelalarm st).
Qed.

Lemma host_run_frame body : forall st,
  fired (snd (host_run body st)) = fired st
  /\ exists l, bus (snd (host_run body st)) = bus st ++ l.
Proof.
  induction body as [|c body IH]; intros st.
  - split; [reflexivity|]. exists []. now rewrite app_nil_r.
  - rewrite host_run_cons.
    destruct (host_step_frame c st) as (F1 & l1 & F2).
    destruct (IH (snd (host_step c st))) as (G1 & l2 & G2).
    split; [congruence|]. exists (l1 ++ l2).
    rewrite G2, F2, app_assoc. reflexivity.
Qed.

Lemma interrupt_unfold st :
  kinetis_rtc_interrupt st =
    (putreg32 0 KINETIS_RTC_TAR ;; putreg32 0 KINETIS_RTC_IER ;; ret 0)
      (after_callback st).
Proof.
  unfold kinetis_rtc_interrupt, after_callback, bind at 1.
  destruct (g_alarmcb st) as [f|]; [|reflexivity].
  unfold bind at 1. destruct (call_alarmcb f st). reflexivity.
Qed.

Lemma interrupt_tail st :
  let st' := snd ((putreg32 0 KINETIS_RTC_TAR ;;
                   putreg32 0 KINETIS_RTC_IER ;; ret 0) st) in
  g_alarmcb st' = g_alarmcb st
  /\ fired st' = fired st
  /\ RTC_TAR (hw st') = 0
  /\ RTC_IER (hw st') = 0
  /\ bus st' = bus st ++ [RegWrite KINETIS_RTC_TAR 0;
                          RegWrite KINETIS_RTC_IER 0].
Proof.
  unfold bind, putreg32, ret, elapse. simpl.
  match goal with
  | |- context [hw_ticks ?n (reg_set KINETIS_RTC_TAR ?v ?h)] =>
      destruct (hw_ticks_frame n (reg_set KINETIS_RTC_TAR v h))
        as (_ & Htar & _)
  end.
  unfold reg_set in *. simpl in *. rewrite uint32_0 in *.
  rewrite <- app_assoc. repeat split; try reflexivity. exact Htar.
Qed.

Lemma after_callback_frame st :
  g_alarmcb (after_callback st) = None
  /\ (forall f, g_alarmcb st = Some f ->
        fired (after_callback st) = fired st ++ [f])
  /\ (g_alarmcb st = None -> after_callback st = st)
  /\ exists l, bus (after_callback st) = bus st ++ l.
Proof.
  unfold after_callback, call_alarmcb.
  destruct (g_alarmcb st) as [f|] eqn:Hcb.
  - destruct (host_run_frame (host st f) (log_fired f st)) as (F1 & l & F2).
    split; [reflexivity|]. split; [intros g [= <-]; exact F1|].
    split; [discriminate|]. exists l. exact F2.
  - split; [exact Hcb|]. split; [discriminate|]. split; [reflexivity|].
    exists []. now rewrite app_nil_r.
Qed.

(** C7.  [kinetis_rtc_interrupt] invokes a stored callback exactly once
    and then clears it; with or without a callback, its last two bus
    accesses clear the compare register and the interrupt enable, the
    slot is empty on exit, and a following [kinetis_rtc_setalarm]
    returns OK. *)
Theorem interrupt_fires_once_and_clears st :
  let st' := snd (kinetis_rtc_interrupt st) in
  (forall f, g_alarmcb st = Some f -> fired st' = fired st ++ [f])
  /\ (g_alarmcb st = None ->
      fired st' = fired st
      /\ issued st st' =
           [RegWrite KINETIS_RTC_TAR 0; RegWrite KINETIS_RTC_IER 0])
  /\ g_alarmcb st' = None
  /\ RTC_TAR (hw st') = 0
  /\ RTC_IER (hw st') = 0
  /\ alarm_armed st' = false
  /\ (exists pre,
        issued st st' =
          pre ++ [RegWrite KINETIS_RTC_TAR 0; RegWrite KINETIS_RTC_IER 0])
  /\ fst (kinetis_rtc_interrupt st) = 0
  /\ (forall tp callback, fst (kinetis_rtc_setalarm tp callback st') = OK).
Proof.
  rewrite interrupt_unfold.
  destruct (interrupt_tail (after_callback st)) as (T1 & T2 & T3 & T4 & T5).
  destruct (after_callback_frame st) as (C1 & C2 & C3 & l & C4).
  cbv zeta in *.
  set (st' := snd ((putreg32 0 KINETIS_RTC_TAR ;;
                    putreg32 0 KINETIS_RTC_IER ;; ret 0)
                     (after_callback st))) in *.
  split; [intros f Hf; rewrite T2; auto|].
  split.
  { intros Hn. rewrite T2, (C3 Hn). split; [reflexivity|].
    apply issued_app. rewrite T5, (C3 Hn). reflexivity. }
  split; [congruence|].
  split; [exact T3|]. split; [exact T4|].
  split; [unfold alarm_armed; rewrite T4; reflexivity|].
  split.
  { exists l. apply issued_app. rewrite T5, C4, <- app_assoc. reflexivity. }
  split; [reflexivity|].
  intros tp callback. unfold kinetis_rtc_setalarm.
  rewrite T1, C1. reflexivity.
Qed.

(** C10.  Called with a NULL callback on an empty slot,
    [kinetis_rtc_setalarm] returns OK, programs the compare register and
    enables the alarm interrupt, yet the slot still reads empty: the
    next [kinetis_rtc_setalarm] returns OK rather than [-EBUSY], and
    the interrupt handler invokes nothing. *)
Theorem setalarm_null_callback_leaves_slot_empty st tp :
  chip_ok chip = true ->
  g_alarmcb st = None ->
  let st1 := snd (kinetis_rtc_setalarm tp None st) in
  fst (kinetis_rtc_setalarm tp None st) = OK
  /\ RTC_TAR (hw st1) = uint32 (tv_sec tp)
  /\ RTC_IER (hw st1) = RTC_IER_TAIE
  /\ alarm_armed st1 = true
  /\ g_alarmcb st1 = None
  /\ (forall tp2 callback2,
        fst (kinetis_rtc_setalarm tp2 callback2 st1) = OK
        /\ OK <> - EBUSY)
  /\ fired (snd (kinetis_rtc_interrupt st1)) = fired st1.
Proof.
  intros Hok Hcb.
  destruct (setalarm_when_idle st tp None Hok Hcb)
    as (R & G & Ta & Ie & Ar & _).
  destruct (chip_ok_inv Hok) as (_ & _ & _ & Hbusy & _).
  cbv zeta. split; [exact R|]. split; [exact Ta|]. split; [exact Ie|].
  split; [exact Ar|]. split; [exact G|]. split.
  - intros tp2 cb2. unfold kinetis_rtc_setalarm at 1. rewrite G.
    split; [reflexivity|]. unfold OK. lia.
  - rewrite interrupt_unfold.
    destruct (interrupt_tail
                (after_callback (snd (kinetis_rtc_setalarm tp None st))))
      as (_ & T2 & _).
    destruct (after_callback_frame (snd (kinetis_rtc_setalarm tp None st)))
      as (_ & _ & C3 & _).
    cbv zeta in T2. rewrite T2, (C3 G). reflexivity.
Qed.

Lemma cancelalarm_when_armed st :
  g_alarmcb st <> None ->
  let st' := snd (kinetis_rtc_cancelalarm st) in
  g_alarmcb st' = None /\ RTC_IER (hw st') = 0.
Proof.
  intros Hcb. unfold kinetis_rtc_cancelalarm.
  destruct (g_alarmcb st) as [f|]; [|congruence].
  unfold bind, putreg32, ret, elapse. simpl. unfold reg_set. simpl.
  now rewrite uint32_0.
Qed.

Lemma cancelalarm_when_idle st :
  g_alarmcb st = None -> kinetis_rtc_cancelalarm st = (- ENODATA, st).
Proof. intros Hcb. unfold kinetis_rtc_cancelalarm. now rewrite Hcb. Qed.

Lemma interrupt_exit st :
  let st' := snd (kinetis_rtc_interrupt st) in
  g_alarmcb st' = None /\ RTC_IER (hw st') = 0.
Proof.
  rewrite interrupt_unfold.
  destruct (interrupt_tail (after_callback st)) as (T1 & _ & _ & T4 & _).
  destruct (after_callback_frame st) as (C1 & _).
  cbv zeta in *. split; congruence.
Qed.

Lemma disarmed_idle st :
  g_alarmcb st = None -> RTC_IER (hw st) = 0 -> slot_invariant st.
Proof.
  intros Hcb Hie. unfold slot_invariant, alarm_armed. rewrite Hcb, Hie.
  cbn. split; [congruence|discriminate].
Qed.

Lemma slot_cases st : g_alarmcb st = None \/ g_alarmcb st <> None.
Proof. destruct (g_alarmcb st); [right; discriminate|left; reflexivity]. Qed.

Lemma weak_invariant_step op st :
  chip_ok chip = true ->
  (g_alarmcb st <> None -> alarm_armed st = true) ->
  let st' := snd (alarm_exec op st) in
  g_alarmcb st' <> None -> alarm_armed st' = true.
Proof.
  intros Hok I. destruct op as [tp cb| |]; cbn [alarm_exec]; cbv zeta.
  - destruct (slot_cases st) as [Hcb|Hcb].
    + intros _. now apply setalarm_when_idle.
    + rewrite setalarm_when_busy by assumption. exact I.
  - destruct (slot_cases st) as [Hcb|Hcb].
    + rewrite cancelalarm_when_idle by assumption. exact I.
    + destruct (cancelalarm_when_armed st Hcb) as (G & _). congruence.
  - destruct (interrupt_exit st) as (G & _). congruence.
Qed.

Lemma slot_invariant_step op st :
  chip_ok chip = true ->
  passes_callback op = true ->
  slot_invariant st ->
  slot_invariant (snd (alarm_exec op st)).
Proof.
  intros Hok Hop I. destruct op as [tp cb| |]; cbn [alarm_exec].
  - destruct (slot_cases st) as [Hcb|Hcb].
    + destruct (setalarm_when_idle st tp cb Hok Hcb)
        as (_ & G & _ & _ & Ar & _).
      cbv zeta in *. unfold slot_invariant. rewrite G, Ar.
      destruct cb; [|discriminate Hop]. split; congruence.
    + rewrite setalarm_when_busy by assumption. exact I.
  - destruct (slot_cases st) as [Hcb|Hcb].
    + rewrite cancelalarm_when_idle by assumption. exact I.
    + destruct (cancelalarm_when_armed st Hcb) as (G & Ie).
      now apply disarmed_idle.
  - destruct (interrupt_exit st) as (G & Ie). now apply disarmed_idle.
Qed.

Lemma programmed_for_step op st pending :
  chip_ok chip = true ->
  programmed_for pending st ->
  programmed_for (alarm_note op (fst (alarm_exec op st)) pending)
    (snd (alarm_exec op st)).
Proof.
  intros Hok P. destruct (chip_ok_inv Hok) as (_ & _ & _ & Hbusy & Hnodata).
  destruct op as [tp cb| |]; cbn [alarm_exec alarm_note].
  - destruct (slot_cases st) as [Hcb|Hcb].
    + destruct (setalarm_when_idle st tp cb Hok Hcb)
        as (R & _ & Ta & Ie & _).
      cbv zeta in *. rewrite R. cbn. split; assumption.
    + rewrite setalarm_when_busy by assumption. cbn [fst snd].
      replace (- EBUSY =? OK) with false; [exact P|].
      symmetry. apply Z.eqb_neq. unfold OK. lia.
  - destruct (slot_cases st) as [Hcb|Hcb].
    + rewrite cancelalarm_when_idle by assumption. cbn [fst snd].
      replace (- ENODATA =? OK) with false; [exact P|].
      symmetry. apply Z.eqb_neq. unfold OK. lia.
    + destruct (cancelalarm_when_armed st Hcb) as (_ & Ie).
      cbv zeta in Ie.
      destruct (fst (kinetis_rtc_cancelalarm st) =? OK) eqn:E;
        [exact Ie|].
      unfold kinetis_rtc_cancelalarm in E.
      destruct (g_alarmcb st); [discriminate E|congruence].
  - destruct (interrupt_exit st) as (_ & Ie). exact Ie.
Qed.

Lemma programmed_for_armed pending st :
  chip_ok chip = true ->
  programmed_for pending st ->
  (alarm_armed st = true <-> pending <> None).
Proof.
  intros Hok P. destruct (chip_ok_inv Hok) as (_ & _ & Hie & _).
  unfold alarm_armed. destruct pending as [tp|]; cbn in P.
  - destruct P as (Ie & _). rewrite Ie, Z.land_diag.
    split; [discriminate|]. intros _.
    apply negb_true_iff, Z.eqb_neq. lia.
  - rewrite P. cbn. split; [discriminate|congruence].
Qed.

(** C8, amended.  In every state reached from the initialised machine
    by set-alarm, cancel-alarm and interrupt-handler steps, the alarm
    interrupt is enabled exactly when a request has been programmed and
    has not yet fired or been cancelled, and the compare register then
    holds that request's seconds; a stored callback implies that the
    alarm is armed; and when every set-alarm step passes a non-NULL
    callback, the callback is stored if and only if the alarm is armed. *)
Theorem slot_invariant_reachable boot ops :
  chip_ok chip = true ->
  g_alarmcb boot = None ->
  let st := alarm_run ops (initialized boot) in
  let pending := alarm_history ops (initialized boot) None in
  (alarm_armed st = true <-> pending <> None)
  /\ (forall tp, pending = Some tp -> RTC_TAR (hw st) = uint32 (tv_sec tp))
  /\ (g_alarmcb st <> None -> alarm_armed st = true)
  /\ (forallb passes_callback ops = true -> slot_invariant st).
Proof.
  intros Hok Hb.
  destruct (initialized_idle boot Hb) as (G0 & Ie0).
  pose proof (disarmed_idle _ G0 Ie0) as I0.
  assert (P0 : programmed_for None (initialized boot)) by exact Ie0.
  generalize dependent (initialized boot). intros st0 _ _ I0 P0.
  cbv zeta.
  assert (P : programmed_for (alarm_history ops st0 None)
                (alarm_run ops st0)).
  { clear I0. revert st0 P0. generalize (@None timespec).
    induction ops as [|op ops IH]; intros g st0 P0;
      cbn [alarm_run alarm_history]; [exact P0|].
    apply IH. now apply programmed_for_step. }
  split; [now apply programmed_for_armed|]. split.
  { intros tp E. rewrite E in P. apply P. }
  clear P P0. split.
  - assert (W0 : g_alarmcb st0 <> None -> alarm_armed st0 = true)
      by apply I0.
    clear I0. revert st0 W0.
    induction ops as [|op ops IH]; intros st0 W0; cbn [alarm_run];
      [exact W0|].
    apply IH. now apply weak_invariant_step.
  - revert st0 I0.
    induction ops as [|op ops IH]; intros st0 I0 Hops; cbn [alarm_run];
      [exact I0|].
    cbn [forallb] in Hops. apply andb_true_iff in Hops as (Hop & Hops).
    apply IH; [|exact Hops]. now apply slot_invariant_step.
Qed.
End AlarmFacts.

(** * The boot hook and the low-resolution read *)

Section BootFacts.
Context {chip : Chip}.

#[local] Arguments hw_ticks : simpl never.
#[local] Arguments uint32 : simpl never.
#[local] Arguments elapsed : simpl never.
#[local] Arguments reg_set : simpl never.

Lemma TSR_reg_set r v h :
  r <> KINETIS_RTC_TSR -> RTC_TSR (reg_set r v h) = RTC_TSR h.
Proof. intros Hr. destruct r; try reflexivity. congruence. Qed.

Lemma accessed_nil st : accessed (hw st) [] st = st.
Proof. unfold accessed. rewrite app_nil_r. now destruct st. Qed.

Lemma getreg32_run r h l st :
  getreg32 r (accessed h l st) =
    (reg_get r (hw_ticks (clk st (length (bus st) + length l)) h),
     accessed (hw_ticks (clk st (length (bus st) + length l)) h)
       (l ++ [RegRead r
                (reg_get r
                   (hw_ticks (clk st (length (bus st) + length l)) h))])
       st).
Proof.
  unfold getreg32, elapse, accessed, log_access, set_hw.
  cbn [hw bus clk g_alarmcb g_rtc_enabled irq_masked isr_attached
         irq_enabled fired host].
  now rewrite length_app, <- app_assoc.
Qed.

Lemma putreg32_run v r h l st :
  putreg32 v r (accessed h l st) =
    (tt,
     accessed
       (reg_set r (uint32 v)
          (hw_ticks (clk st (length (bus st) + length l)) h))
       (l ++ [RegWrite r (uint32 v)]) st).
Proof.
  unfold putreg32, elapse, accessed, log_access, set_hw.
  cbn [hw bus clk g_alarmcb g_rtc_enabled irq_masked isr_attached
         irq_enabled fired host].
  now rewrite length_app, <- app_assoc.
Qed.

Lemma bind_run {A B} (m : M A) (k : A -> M B) st a st' :
  m st = (a, st') -> bind m k st = k a st'.
Proof. intros E. unfold bind. now rewrite E. Qed.

Lemma issued_accessed h l st : issued st (accessed h l st) = l.
Proof. apply issued_app. reflexivity. Qed.

(** The whole of [up_rtc_initialize], access by access.  The counter runs
    until the third access clears the status register; from there on the
    ticks change nothing. *)
Lemma initialize_run st :
  let gate := SIM_SCGC6 (hw st) in
  let running := hw_ticks (elapsed st 3) (hw st) in
  let osc := uint32 (Z.lor (Z.lor RTC_CR_SC16P RTC_CR_SC4P) RTC_CR_OSCE) in
  up_rtc_initialize st =
    (OK,
     accessed
       (reg_set KINETIS_RTC_SR (uint32 RTC_SR_TCE)
          (reg_set KINETIS_RTC_TSR (uint32 (RTC_TSR running))
             (reg_set KINETIS_RTC_IER 0
                (reg_set KINETIS_RTC_CR osc
                   (reg_set KINETIS_RTC_SR 0
                      (reg_set KINETIS_SIM_SCGC6
                         (uint32 (Z.lor gate SIM_SCGC6_RTC)) running))))))
       [RegRead KINETIS_SIM_SCGC6 gate;
        RegWrite KINETIS_SIM_SCGC6 (uint32 (Z.lor gate SIM_SCGC6_RTC));
        RegWrite KINETIS_RTC_SR 0;
        RegWrite KINETIS_RTC_CR osc;
        RegWrite KINETIS_RTC_IER 0;
        RegRead KINETIS_RTC_TSR (RTC_TSR running);
        RegWrite KINETIS_RTC_TSR (uint32 (RTC_TSR running));
        RegWrite KINETIS_RTC_SR (uint32 RTC_SR_TCE)]
       (booted st)).
Proof.
  cbv zeta. unfold up_rtc_initialize.
  rewrite <- (accessed_nil st) at 1.
  erewrite bind_run by apply getreg32_run.
  erewrite bind_run by apply putreg32_run.
  erewrite bind_run by apply putreg32_run.
  erewrite bind_run by apply putreg32_run.
  erewrite bind_run by apply putreg32_run.
  erewrite bind_run by apply getreg32_run.
  erewrite bind_run by apply putreg32_run.
  assert (Hboot : forall h l,
            ((if CONFIG_RTC_ALARM then irq_attach;; up_enable_irq else ret tt);;
             putreg32 RTC_SR_TCE KINETIS_RTC_SR;;
             (fun st0 : machine => (tt, set_g_rtc_enabled true st0));; ret OK)
              (accessed h l st)
            = (OK,
               accessed
                 (reg_set KINETIS_RTC_SR (uint32 RTC_SR_TCE)
                    (hw_ticks (clk st (length (bus st) + length l)) h))
                 (l ++ [RegWrite KINETIS_RTC_SR (uint32 RTC_SR_TCE)])
                 (booted st))).
  { intros h l. unfold booted, bind, irq_attach, up_enable_irq, ret.
    destruct CONFIG_RTC_ALARM.
    - change (set_irq_enabled true (set_isr_attached true (accessed h l st)))
        with (accessed h l (set_irq_enabled true (set_isr_attached true st))).
      rewrite putreg32_run. reflexivity.
    - rewrite putreg32_run. reflexivity. }
  rewrite Hboot. clear Hboot.
  rewrite !length_app. cbn [length app Nat.add].
  rewrite !Nat.add_0_r.
  change (uint32 0) with 0.
  assert (F : forall n h, SIM_SCGC6 (hw_ticks n h) = SIM_SCGC6 h)
    by (intros n h; apply hw_ticks_frame).
  cbn [reg_get]. rewrite !F.
  set (c0 := clk st (length (bus st))).
  set (c1 := clk st (length (bus st) + 1)).
  set (c2 := clk st (length (bus st) + 2)).
  assert (E3 : elapsed st 3 = (c0 + c1 + c2)%nat).
  { subst c0 c1 c2. rewrite !elapsed_S. cbn [elapsed].
    now rewrite Nat.add_0_r. }
  rewrite E3.
  repeat match goal with
         | |- context [hw_ticks ?n (reg_set ?r ?v ?h)] =>
             rewrite (hw_ticks_stopped n (reg_set r v h))
               by (repeat (rewrite ?hw_ticks_counting;
                           rewrite ?counting_reg_set by discriminate);
                   apply counting_cleared)
         end.
  rewrite (hw_ticks_reg_set c2) by reflexivity.
  rewrite <- !hw_ticks_add.
  rewrite !TSR_reg_set by discriminate.
  rewrite !Nat.add_assoc. reflexivity.
Qed.

(** X1.  [up_rtc_initialize] always returns OK after exactly eight bus
    accesses in a fixed order, whatever ticks fall between them: the clock
    gate is read and written back, the counter is stopped, the oscillator
    configured, the RTC interrupts disabled, the seconds register read and
    rewritten with what was read, and only then the counter is enabled.
    On return [g_rtc_enabled] is set, the interrupt-enable register is
    zero, the alarm callback is untouched, and the RTC interrupt is
    attached and enabled exactly when the build has alarms. *)
Theorem initialize_sequence st :
  let st' := snd (up_rtc_initialize st) in
  let gate := SIM_SCGC6 (hw st) in
  let seconds := RTC_TSR (hw_ticks (elapsed st 3) (hw st)) in
  let osc := uint32 (Z.lor (Z.lor RTC_CR_SC16P RTC_CR_SC4P) RTC_CR_OSCE) in
  fst (up_rtc_initialize st) = OK
  /\ issued st st' =
       [RegRead KINETIS_SIM_SCGC6 gate;
        RegWrite KINETIS_SIM_SCGC6 (uint32 (Z.lor gate SIM_SCGC6_RTC));
        RegWrite KINETIS_RTC_SR 0;
        RegWrite KINETIS_RTC_CR osc;
        RegWrite KINETIS_RTC_IER 0;
        RegRead KINETIS_RTC_TSR seconds;
        RegWrite KINETIS_RTC_TSR (uint32 seconds);
        RegWrite KINETIS_RTC_SR (uint32 RTC_SR_TCE)]
  /\ g_rtc_enabled st' = true
  /\ RTC_IER (hw st') = 0
  /\ RTC_CR (hw st') = osc
  /\ RTC_SR (hw st') = uint32 RTC_SR_TCE
  /\ RTC_TAR (hw st') = RTC_TAR (hw st)
  /\ g_alarmcb st' = g_alarmcb st
  /\ fired st' = fired st
  /\ irq_masked st' = irq_masked st
  /\ isr_attached st' = (CONFIG_RTC_ALARM || isr_attached st)
  /\ irq_enabled st' = (CONFIG_RTC_ALARM || irq_enabled st).
Proof.
  cbv zeta. pose proof (initialize_run st) as R. cbv zeta in R.
  rewrite R. cbn [fst snd].
  destruct (hw_ticks_frame (elapsed st 3) (hw st)) as (_ & Htar & _).
  split; [reflexivity|]. split.
  { unfold issued, accessed, booted. cbn [bus].
    replace (length (bus st))
      with (length (bus (set_g_rtc_enabled true
                           (if CONFIG_RTC_ALARM
                            then set_irq_enabled true (set_isr_attached true st)
                            else st))))
      by (destruct CONFIG_RTC_ALARM; reflexivity).
    rewrite skipn_app, skipn_all, Nat.sub_diag. reflexivity. }
  unfold accessed, booted.
  destruct CONFIG_RTC_ALARM; cbn; unfold reg_set; cbn;
    repeat split; try reflexivity; exact Htar.
Qed.

Lemma hw_ticks_seconds_range n : forall h,
  is_uint32 (RTC_TSR h) = true -> is_uint32 (RTC_TSR (hw_ticks n h)) = true.
Proof.
  induction n as [|n IH]; intros h H; [exact H|].
  change (hw_ticks (S n) h) with (hw_ticks n (hw_tick h)). apply IH.
  unfold hw_tick. destruct (counting h); [|exact H].
  destruct (RTC_TPR h + 1 <? CONFIG_RTC_FREQUENCY).
  - destruct h as [a s p t c sr ie]; exact H.
  - destruct h as [a s p t c sr ie]. unfold reg_set, is_uint32.
    cbn [RTC_TSR].
    match goal with |- context [uint32 ?z] => pose proof (uint32_range z) end.
    rewrite andb_true_iff, Z.leb_le, Z.ltb_lt. lia.
Qed.

(** X2.  [up_rtc_initialize] keeps the stored time.  The counter runs on
    until the third bus access stops it; the seconds and the prescaler it
    shows at that point are the ones the restarted counter resumes from. *)
Theorem initialize_keeps_time st :
  chip_ok chip = true ->
  is_uint32 (RTC_TSR (hw st)) = true ->
  let st' := snd (up_rtc_initialize st) in
  let running := hw_ticks (elapsed st 3) (hw st) in
  RTC_TSR (hw st') = RTC_TSR running
  /\ RTC_TPR (hw st') = RTC_TPR running
  /\ counting (hw st') = true.
Proof.
  intros Hok Hs. cbv zeta.
  destruct (chip_ok_inv Hok) as (_ & Hce & _).
  pose proof (hw_ticks_seconds_range (elapsed st 3) _ Hs) as Hr.
  unfold is_uint32 in Hr. rewrite andb_true_iff, Z.leb_le, Z.ltb_lt in Hr.
  pose proof (initialize_run st) as R. cbv zeta in R.
  rewrite R. unfold accessed, counting, reg_set. cbn.
  rewrite (uint32_small (RTC_TSR _)) by lia.
  rewrite (uint32_small RTC_SR_TCE), Z.land_diag by lia.
  repeat split. apply negb_true_iff, Z.eqb_neq. lia.
Qed.

(** X3.  [up_rtc_initialize] opens the RTC clock gate and leaves every
    other gate of the 32-bit gating register as it found it. *)
Theorem initialize_opens_clock_gate st i :
  0 <= i < 32 ->
  Z.testbit (SIM_SCGC6 (hw (snd (up_rtc_initialize st)))) i
  = Z.testbit (SIM_SCGC6 (hw st)) i || Z.testbit SIM_SCGC6_RTC i.
Proof.
  intros Hi. pose proof (initialize_run st) as R. cbv zeta in R.
  rewrite R. unfold accessed, reg_set. cbn.
  unfold uint32. rewrite Z.mod_pow2_bits_low by lia.
  apply Z.lor_spec.
Qed.

(** X4.  Low-resolution round trip.  After [up_rtc_settime], provided the
    prescaler value it wrote is below the wrap value, [up_rtc_time]
    returns the seconds that were set plus the whole seconds that the
    ticks since then, on top of that prescaler value, amount to (modulo
    2^32).  With no tick in between it returns the seconds that were
    set. *)
Theorem settime_then_time_counts st tp :
  chip_ok chip = true ->
  let prescaler :=
    uint32 (tv_nsec tp * Z.quot CONFIG_RTC_FREQUENCY 1000000000) in
  let d := clk st (length (bus st) + 4) in
  prescaler < CONFIG_RTC_FREQUENCY ->
  fst (up_rtc_time (snd (up_rtc_settime tp st)))
  = uint32 (tv_sec tp + (prescaler + Z.of_nat d) / CONFIG_RTC_FREQUENCY)
  /\ (d = 0%nat ->
      fst (up_rtc_time (snd (up_rtc_settime tp st))) = uint32 (tv_sec tp)).
Proof.
  intros Hok. cbv zeta. intros Hp.
  destruct (chip_ok_inv Hok) as (Hf & _).
  destruct (settime_run st tp) as (H & B & C & _). cbv zeta in H, B, C.
  pose proof (settime_restarts_counter st tp Hok) as Hrun.
  pose proof (uint32_range
                (tv_nsec tp * Z.quot CONFIG_RTC_FREQUENCY 1000000000)) as Rp.
  pose proof (uint32_range (tv_sec tp)) as Rs.
  set (st1 := snd (up_rtc_settime tp st)) in *.
  assert (V : fst (up_rtc_time st1)
              = RTC_TSR (hw_ticks (clk st (length (bus st) + 4)) (hw st1))).
  { unfold up_rtc_time, getreg32, elapse. cbn [fst set_hw hw reg_get].
    now rewrite C, B, length_app. }
  assert (Hwf : counter_wf (hw st1) = true).
  { rewrite H. unfold counter_wf, is_uint32, reg_set. cbn.
    rewrite !andb_true_iff, !Z.leb_le, !Z.ltb_lt. lia. }
  rewrite V, hw_ticks_running by (assumption || lia).
  rewrite H. unfold reg_set. cbn.
  assert (E : forall b, uint32 (uint32 (tv_sec tp) + b) = uint32 (tv_sec tp + b)).
  { intros b. unfold uint32. now rewrite Zplus_mod_idemp_l. }
  rewrite E. split; [reflexivity|].
  intros ->. rewrite Z.add_0_r, Z.div_small, Z.add_0_r by lia. reflexivity.
Qed.
End BootFacts.

(** * Successive reads *)

Section ReadRuns.
Context {chip : Chip}.

Lemma counter_wf_ticks n h :
  0 < CONFIG_RTC_FREQUENCY ->
  counter_wf h = true -> counter_wf (hw_ticks n h) = true.
Proof.
  intros Hf Hwf. destruct (counting h) eqn:Hc.
  - rewrite hw_ticks_running by assumption.
    unfold counter_wf, is_uint32. cbn [reg_set RTC_TPR RTC_TSR].
    pose proof (Z.mod_pos_bound (RTC_TPR h + Z.of_nat n) _ Hf).
    match goal with |- context [uint32 ?z] => pose proof (uint32_range z) end.
    rewrite !andb_true_iff, !Z.leb_le, !Z.ltb_lt. lia.
  - now rewrite hw_ticks_stopped.
Qed.

(** What the loop accepts was on display: with the prescaler read at tick
    [d1] and again at [d3], the seconds at [d2] in between, and the second
    prescaler reading not below the first, some instant of the window
    showed the first prescaler reading together with the seconds read. *)
Lemma accepted_instant h d1 d2 d3 :
  0 < CONFIG_RTC_FREQUENCY ->
  counter_wf h = true ->
  (d1 <= d2 <= d3)%nat ->
  RTC_TPR (hw_ticks d1 h) <= RTC_TPR (hw_ticks d3 h) ->
  exists n, (d1 <= n <= d3)%nat
    /\ RTC_TSR (hw_ticks n h) = RTC_TSR (hw_ticks d2 h)
    /\ RTC_TPR (hw_ticks n h) = RTC_TPR (hw_ticks d1 h).
Proof.
  intros Hf Hwf Hd Hle. destruct (counter_wf_inv _ Hwf) as (Hp & Hs).
  destruct (counting h) eqn:Hc.
  - rewrite (hw_ticks_running d1), (hw_ticks_running d2),
      (hw_ticks_running d3) in * by assumption.
    cbn [reg_set RTC_TPR RTC_TSR] in *.
    destruct (existed_between CONFIG_RTC_FREQUENCY (RTC_TPR h)
                (Z.of_nat d1) (Z.of_nat d2) (Z.of_nat d3))
      as (n & Hn & Hm & Hq); try lia.
    exists (Z.to_nat n).
    rewrite (hw_ticks_running (Z.to_nat n)) by assumption.
    cbn [reg_set RTC_TPR RTC_TSR]. rewrite Z2Nat.id by lia.
    rewrite Hm, Hq. split; [lia|]. split; reflexivity.
  - exists d1. rewrite !(hw_ticks_stopped _ _ Hc). split; [lia|].
    split; reflexivity.
Qed.

(** A returning [up_rtc_gettime], in terms of the ticks since its entry:
    it made [k] accesses, left the counter where free running took it, and
    reports what was shown at an instant [n] no later than its return. *)
Lemma gettime_instant fuel st r tp st' :
  chip_ok chip = true ->
  counter_wf (hw st) = true ->
  up_rtc_gettime fuel st = Some ((r, tp), st') ->
  exists k n,
    (n <= elapsed st k)%nat
    /\ tp = shown (hw_ticks n (hw st))
    /\ hw st' = hw_ticks (elapsed st k) (hw st)
    /\ clk st' = clk st
    /\ length (bus st') = (length (bus st) + k)%nat.
Proof.
  intros Hok Hwf H. destruct (chip_ok_inv Hok) as (Hf & _).
  unfold up_rtc_gettime, enter_critical_section, leave_critical_section in H.
  destruct (gettime_loop fuel (set_irq_masked true st))
    as [[[s p] st3]|] eqn:Hloop; [|discriminate].
  injection H as <- <- <-.
  destruct (gettime_loop_sound _ _ _ _ _ Hloop)
    as (j & p2 & pre & _ & A & V1 & V2 & V3 & Hle & _).
  rewrite !(elapsed_ext st (set_irq_masked true st)) in * by reflexivity.
  change (hw (set_irq_masked true st)) with (hw st) in *.
  destruct (accepted_instant (hw st) (elapsed st (3 * j + 1))
              (elapsed st (3 * j + 2)) (elapsed st (3 * j + 3)))
    as (n & Hn & Es & Ep); try lia; try assumption.
  { split; apply elapsed_mono; lia. }
  assert (Rp : 0 <= p < CONFIG_RTC_FREQUENCY).
  { rewrite V1.
    apply (counter_wf_inv (hw_ticks (elapsed st (3 * j + 1)) (hw st))).
    now apply counter_wf_ticks. }
  pose proof (nsec_in_range p (proj1 Hf) Rp) as Rn.
  exists (3 * j + 3)%nat, n.
  split; [lia|]. split.
  { unfold shown. rewrite Es, Ep, <- V1, <- V2.
    rewrite uint32_small, to_long_small by lia. reflexivity. }
  split.
  { change (hw st3 = hw_ticks (elapsed st (3 * j + 3)) (hw st)).
    rewrite (ar_hw _ _ _ A).
    now rewrite (elapsed_ext st (set_irq_masked true st)). }
  split; [exact (ar_clk _ _ _ A)|exact (ar_len _ _ _ A)].
Qed.

(** Later instants show later times, until the seconds register rolls
    over. *)
Lemma shown_order h n1 n2 :
  0 < CONFIG_RTC_FREQUENCY ->
  counter_wf h = true ->
  (n1 <= n2)%nat ->
  ticks_shown h + Z.of_nat n2 < 2 ^ 32 * CONFIG_RTC_FREQUENCY ->
  tv_sec (shown (hw_ticks n1 h)) < tv_sec (shown (hw_ticks n2 h))
  \/ (tv_sec (shown (hw_ticks n1 h)) = tv_sec (shown (hw_ticks n2 h))
      /\ tv_nsec (shown (hw_ticks n1 h)) <= tv_nsec (shown (hw_ticks n2 h))).
Proof.
  intros Hf Hwf Hn Hroll. destruct (counter_wf_inv _ Hwf) as (Hp & Hs).
  unfold shown, ticks_shown in *. cbn [tv_sec tv_nsec].
  destruct (counting h) eqn:Hc.
  - rewrite (hw_ticks_running n1), (hw_ticks_running n2) by assumption.
    cbn [reg_set RTC_TPR RTC_TSR].
    set (f := CONFIG_RTC_FREQUENCY) in *.
    pose proof (Z.div_mod (RTC_TPR h + Z.of_nat n1) f ltac:(lia)) as E1.
    pose proof (Z.div_mod (RTC_TPR h + Z.of_nat n2) f ltac:(lia)) as E2.
    pose proof (Z.mod_pos_bound (RTC_TPR h + Z.of_nat n1) f Hf) as R1.
    pose proof (Z.mod_pos_bound (RTC_TPR h + Z.of_nat n2) f Hf) as R2.
    assert (Q0 : 0 <= (RTC_TPR h + Z.of_nat n1) / f)
      by (apply Z.div_pos; lia).
    assert (Q12 : (RTC_TPR h + Z.of_nat n1) / f
                  <= (RTC_TPR h + Z.of_nat n2) / f)
      by (apply Z.div_le_mono; lia).
    set (q1 := (RTC_TPR h + Z.of_nat n1) / f) in *.
    set (q2 := (RTC_TPR h + Z.of_nat n2) / f) in *.
    set (m1 := (RTC_TPR h + Z.of_nat n1) mod f) in *.
    set (m2 := (RTC_TPR h + Z.of_nat n2) mod f) in *.
    assert (Hq2 : RTC_TSR h + q2 < 2 ^ 32) by nia.
    rewrite !uint32_small by lia.
    assert (C : 0 <= Z.quot 1000000000 f).
    { rewrite Z.quot_div_nonneg by lia. apply Z.div_pos; lia. }
    destruct (Z.eq_dec q1 q2) as [Eq|Nq]; [right|left; lia].
    split; [lia|]. apply Z.mul_le_mono_nonneg_r; [exact C|]. nia.
  - rewrite !(hw_ticks_stopped _ _ Hc). right. split; [reflexivity|lia].
Qed.
Lemma issued_length st st' k :
  length (bus st') = (length (bus st) + k)%nat ->
  length (issued st st') = k.
Proof. intros H. unfold issued. rewrite length_skipn. lia. Qed.

(** X5.  Successive high-resolution reads never go back.  If two calls
    of [up_rtc_gettime] return one after the other, and the seconds
    register does not roll over 2^32 meanwhile, the second time is not
    earlier than the first: later seconds, or the same seconds and no
    fewer nanoseconds. *)
Theorem gettime_monotonic fuel1 fuel2 st r1 tp1 st1 r2 tp2 st2 :
  chip_ok chip = true ->
  counter_wf (hw st) = true ->
  up_rtc_gettime fuel1 st = Some ((r1, tp1), st1) ->
  up_rtc_gettime fuel2 st1 = Some ((r2, tp2), st2) ->
  ticks_shown (hw st) + Z.of_nat (elapsed st (length (issued st st2)))
    < 2 ^ 32 * CONFIG_RTC_FREQUENCY ->
  tv_sec tp1 < tv_sec tp2
  \/ (tv_sec tp1 = tv_sec tp2 /\ tv_nsec tp1 <= tv_nsec tp2).
Proof.
  intros Hok Hwf H1 H2 Hroll. destruct (chip_ok_inv Hok) as (Hf & _).
  destruct (gettime_instant _ _ _ _ _ Hok Hwf H1)
    as (k1 & n1 & Hn1 & T1 & Hh1 & Hc1 & Hl1).
  assert (Hwf1 : counter_wf (hw st1) = true)
    by (rewrite Hh1; apply counter_wf_ticks; [lia|assumption]).
  destruct (gettime_instant _ _ _ _ _ Hok Hwf1 H2)
    as (k2 & n2 & Hn2 & T2 & Hh2 & Hc2 & Hl2).
  rewrite Hh1, <- hw_ticks_add in T2.
  rewrite (issued_length st st2 (k1 + k2)) in Hroll by lia.
  rewrite (elapsed_shift k1 st st1 k2 Hc1 Hl1) in Hroll.
  subst tp1 tp2. apply shown_order; [lia|assumption|lia|lia].
Qed.

Lemma gettime_loop_reads fuel : forall st res st',
  gettime_loop fuel st = Some (res, st') ->
  exists l, bus st' = bus st ++ l /\ forallb is_read l = true.
Proof.
  induction fuel as [|fuel IH]; intros st res st' H; [discriminate|].
  cbn [gettime_loop] in H.
  destruct (loop_body st) as (_ & _ & _ & _ & B). cbv zeta in B.
  destruct (getreg32 KINETIS_RTC_TPR st) as [p1 st1]; cbn [fst snd] in *.
  destruct (getreg32 KINETIS_RTC_TSR st1) as [s0 st2]; cbn [fst snd] in *.
  destruct (getreg32 KINETIS_RTC_TPR st2) as [p2 st3]; cbn [fst snd] in *.
  destruct (p1 >? p2).
  - destruct (IH _ _ _ H) as (l & Bl & Rl).
    eexists. split; [rewrite Bl, B, <- app_assoc; reflexivity|].
    rewrite forallb_app, Rl. reflexivity.
  - injection H as _ <-. eexists. split; [exact B|reflexivity].
Qed.

(** X6.  [up_rtc_gettime] only looks.  A call that returns has put
    nothing but register reads on the bus and leaves every register as
    free running of the counter over those accesses would: no register
    besides the seconds and the prescaler differs.  Interrupt masking is
    back to what it was on entry, and the alarm slot and the callback log
    are untouched. *)
Theorem gettime_only_reads fuel st r tp st' :
  up_rtc_gettime fuel st = Some ((r, tp), st') ->
  r = OK
  /\ forallb is_read (issued st st') = true
  /\ hw st' = hw_ticks (elapsed st (length (issued st st'))) (hw st)
  /\ RTC_SR (hw st') = RTC_SR (hw st)
  /\ RTC_CR (hw st') = RTC_CR (hw st)
  /\ RTC_TAR (hw st') = RTC_TAR (hw st)
  /\ RTC_IER (hw st') = RTC_IER (hw st)
  /\ irq_masked st' = irq_masked st
  /\ g_alarmcb st' = g_alarmcb st
  /\ g_rtc_enabled st' = g_rtc_enabled st
  /\ fired st' = fired st.
Proof.
  intros H.
  unfold up_rtc_gettime, enter_critical_section, leave_critical_section in H.
  destruct (gettime_loop fuel (set_irq_masked true st))
    as [[[s p] st3]|] eqn:Hloop; [|discriminate].
  injection H as <- <- <-.
  destruct (gettime_loop_sound _ _ _ _ _ Hloop)
    as (j & _ & _ & _ & A & _).
  destruct (gettime_loop_reads _ _ _ _ Hloop) as (l & B & Rl).
  pose proof (ar_len _ _ _ A) as Hlen.
  pose proof (ar_hw _ _ _ A) as Hhw.
  rewrite (elapsed_ext st (set_irq_masked true st)) in Hhw by reflexivity.
  change (hw (set_irq_masked true st)) with (hw st) in Hhw.
  change (bus (set_irq_masked true st)) with (bus st) in *.
  assert (I : issued st (set_irq_masked (irq_masked st) st3) = l)
    by (apply issued_app; exact B).
  assert (L : length l = (3 * j + 3)%nat).
  { rewrite B, length_app in Hlen. lia. }
  rewrite I, L.
  destruct (hw_ticks_frame (elapsed st (3 * j + 3)) (hw st))
    as (_ & F1 & F2 & F3 & F4).
  change (hw (set_irq_masked (irq_masked st) st3)) with (hw st3).
  rewrite Hhw.
  split; [reflexivity|]. split; [exact Rl|]. split; [reflexivity|].
  do 4 (split; [assumption|]).
  split; [reflexivity|].
  split; [exact (ar_cb _ _ _ A)|].
  split; [exact (ar_en _ _ _ A)|exact (ar_fired _ _ _ A)].
Qed.
End ReadRuns.

(** * Whole runs of the alarm *)

Section AlarmRuns.
Context {chip : Chip}.

#[local] Arguments hw_ticks : simpl never.
#[local] Arguments uint32 : simpl never.
#[local] Arguments elapsed : simpl never.
#[local] Arguments reg_set : simpl never.

Lemma counter_view_tick h h' :
  counter_view h = counter_view h' ->
  counter_view (hw_tick h) = counter_view (hw_tick h').
Proof.
  unfold counter_view. intros [= Hs Hp Hr].
  unfold hw_tick, counting. rewrite Hs, Hp, Hr.
  destruct (negb (Z.land (RTC_SR h') RTC_SR_TCE =? 0));
    [|now rewrite Hs, Hp, Hr].
  destruct (RTC_TPR h' + 1 <? CONFIG_RTC_FREQUENCY);
    unfold reg_set; cbn; now rewrite ?Hs, ?Hr.
Qed.

Lemma counter_view_ticks n : forall h h',
  counter_view h = counter_view h' ->
  counter_view (hw_ticks n h) = counter_view (hw_ticks n h').
Proof.
  induction n as [|n IH]; intros h h' E; [exact E|].
  change (hw_ticks (S n) h) with (hw_ticks n (hw_tick h)).
  change (hw_ticks (S n) h') with (hw_ticks n (hw_tick h')).
  now apply IH, counter_view_tick.
Qed.

Lemma beside_clock_still st st' :
  hw st' = hw st -> bus st' = bus st -> clk st' = clk st ->
  beside_clock st st'.
Proof.
  intros Hh Hb Hc. split; [exact Hc|]. exists [].
  rewrite app_nil_r, Hh. repeat split; assumption || reflexivity.
Qed.

Lemma beside_clock_trans st1 st2 st3 :
  beside_clock st1 st2 -> beside_clock st2 st3 -> beside_clock st1 st3.
Proof.
  intros (C1 & l1 & B1 & W1 & V1) (C2 & l2 & B2 & W2 & V2).
  split; [congruence|]. exists (l1 ++ l2).
  split; [rewrite B2, B1, app_assoc; reflexivity|].
  split; [rewrite forallb_app, W1, W2; reflexivity|].
  rewrite V2, length_app.
  rewrite (elapsed_shift (length l1) st1 st2 (length l2) C1)
    by (rewrite B1, length_app; reflexivity).
  rewrite hw_ticks_add. now apply counter_view_ticks.
Qed.

Lemma beside_clock_putreg32 v r st :
  alarm_write (RegWrite r 0) = true ->
  beside_clock st (snd (putreg32 v r st)).
Proof.
  intros Hr. unfold putreg32, elapse. cbn [snd].
  split; [reflexivity|]. exists [RegWrite r (uint32 v)].
  split; [reflexivity|]. split; [destruct r; exact Hr|].
  cbn [length]. rewrite elapsed_1. cbn [hw log_access set_hw].
  destruct r; try discriminate Hr; reflexivity.
Qed.

Lemma beside_clock_setalarm tp callback st :
  beside_clock st (snd (kinetis_rtc_setalarm tp callback st)).
Proof.
  unfold kinetis_rtc_setalarm.
  destruct (g_alarmcb st); [now apply beside_clock_still|].
  unfold bind at 1. cbn [snd].
  eapply beside_clock_trans;
    [apply (beside_clock_still st (set_g_alarmcb callback st)); reflexivity|].
  unfold bind at 1.
  pose proof (beside_clock_putreg32 (tv_sec tp) KINETIS_RTC_TAR
                (set_g_alarmcb callback st) eq_refl) as P1.
  destruct (putreg32 (tv_sec tp) KINETIS_RTC_TAR (set_g_alarmcb callback st))
    as [u st1]. cbn [snd] in P1.
  eapply beside_clock_trans; [exact P1|].
  unfold bind, ret.
  pose proof (beside_clock_putreg32 RTC_IER_TAIE KINETIS_RTC_IER st1 eq_refl)
    as P2.
  now destruct (putreg32 RTC_IER_TAIE KINETIS_RTC_IER st1).
Qed.

Lemma beside_clock_cancelalarm st :
  beside_clock st (snd (kinetis_rtc_cancelalarm st)).
Proof.
  unfold kinetis_rtc_cancelalarm.
  destruct (g_alarmcb st); [|now apply beside_clock_still].
  unfold bind at 1. cbn [snd].
  eapply beside_clock_trans;
    [apply (beside_clock_still st (set_g_alarmcb None st)); reflexivity|].
  unfold bind, ret.
  pose proof (beside_clock_putreg32 0 KINETIS_RTC_IER
                (set_g_alarmcb None st) eq_refl) as P.
  now destruct (putreg32 0 KINETIS_RTC_IER (set_g_alarmcb None st)).
Qed.

Lemma beside_clock_host_run body : forall st,
  beside_clock st (snd (host_run body st)).
Proof.
  induction body as [|c body IH]; intros st.
  - now apply beside_clock_still.
  - rewrite host_run_cons.
    eapply beside_clock_trans; [|apply IH].
    destruct c as [tp cb|]; cbn [host_step]; unfold bind, ret.
    + pose proof (beside_clock_setalarm tp cb st) as P.
      now destruct (kinetis_rtc_setalarm tp cb st).
    + pose proof (beside_clock_cancelalarm st) as P.
      now destruct (kinetis_rtc_cancelalarm st).
Qed.

Lemma beside_clock_interrupt st :
  beside_clock st (snd (kinetis_rtc_interrupt st)).
Proof.
  rewrite interrupt_unfold.
  eapply (beside_clock_trans _ (after_callback st)).
  - unfold after_callback, call_alarmcb.
    destruct (g_alarmcb st) as [f|]; [|now apply beside_clock_still].
    eapply (beside_clock_trans _ (log_fired f st));
      [now apply beside_clock_still|].
    eapply beside_clock_trans; [apply beside_clock_host_run|].
    now apply beside_clock_still.
  - unfold bind at 1.
    pose proof (beside_clock_putreg32 0 KINETIS_RTC_TAR (after_callback st)
                  eq_refl) as P1.
    destruct (putreg32 0 KINETIS_RTC_TAR (after_callback st)) as [u st1].
    cbn [snd] in P1. eapply beside_clock_trans; [exact P1|].
    unfold bind, ret.
    pose proof (beside_clock_putreg32 0 KINETIS_RTC_IER st1 eq_refl) as P2.
    now destruct (putreg32 0 KINETIS_RTC_IER st1).
Qed.

Lemma beside_clock_run ops : forall st,
  beside_clock st (alarm_run ops st).
Proof.
  induction ops as [|op ops IH]; intros st; cbn [alarm_run].
  - now apply beside_clock_still.
  - eapply beside_clock_trans; [|apply IH].
    destruct op; cbn [alarm_exec].
    + apply beside_clock_setalarm.
    + apply beside_clock_cancelalarm.
    + apply beside_clock_interrupt.
Qed.

(** X7.  The alarm never disturbs the clock.  Whatever sequence of
    set-alarm, cancel-alarm and interrupt-handler steps runs, host
    callbacks included, every bus access it makes is a write to the
    compare or the interrupt-enable register, and the seconds, prescaler
    and status registers are exactly where free running of the counter
    over those accesses would have them. *)
Theorem alarm_never_disturbs_clock ops st :
  let st' := alarm_run ops st in
  let running := hw_ticks (elapsed st (length (issued st st'))) (hw st) in
  forallb alarm_write (issued st st') = true
  /\ RTC_TSR (hw st') = RTC_TSR running
  /\ RTC_TPR (hw st') = RTC_TPR running
  /\ RTC_SR (hw st') = RTC_SR (hw st).
Proof.
  cbv zeta. destruct (beside_clock_run ops st) as (_ & l & B & W & V).
  rewrite (issued_app _ _ _ B).
  unfold counter_view in V. injection V as Vs Vp Vr.
  destruct (hw_ticks_frame (elapsed st (length l)) (hw st))
    as (_ & _ & _ & Fsr & _).
  repeat split; congruence.
Qed.
(** X8.  Setting the time leaves the alarm alone: the slot, the compare
    register, the interrupt enable and the callback log are the same
    after [up_rtc_settime] as before. *)
Theorem settime_leaves_alarm st tp :
  let st' := snd (up_rtc_settime tp st) in
  g_alarmcb st' = g_alarmcb st
  /\ RTC_TAR (hw st') = RTC_TAR (hw st)
  /\ RTC_IER (hw st') = RTC_IER (hw st)
  /\ alarm_armed st' = alarm_armed st
  /\ fired st' = fired st.
Proof.
  cbv zeta. destruct (settime_run st tp) as (H & _ & _ & _ & G & _).
  cbv zeta in H, G.
  destruct (hw_ticks_frame (elapsed st 1) (hw st)) as (_ & Ft & _ & _ & Fi).
  assert (T : RTC_TAR (hw (snd (up_rtc_settime tp st))) = RTC_TAR (hw st))
    by (rewrite H; unfold reg_set; cbn; exact Ft).
  assert (I : RTC_IER (hw (snd (up_rtc_settime tp st))) = RTC_IER (hw st))
    by (rewrite H; unfold reg_set; cbn; exact Fi).
  split; [exact G|]. split; [exact T|]. split; [exact I|].
  split; [unfold alarm_armed; now rewrite I|].
  unfold up_rtc_settime, bind, putreg32, enter_critical_section,
    leave_critical_section, ret, elapse. reflexivity.
Qed.

Lemma setalarm_idle_basic st tp callback :
  g_alarmcb st = None ->
  let st' := snd (kinetis_rtc_setalarm tp callback st) in
  fst (kinetis_rtc_setalarm tp callback st) = OK
  /\ g_alarmcb st' = callback
  /\ RTC_TAR (hw st') = uint32 (tv_sec tp)
  /\ fired st' = fired st.
Proof.
  intros Hcb. unfold kinetis_rtc_setalarm. rewrite Hcb.
  unfold bind, putreg32, ret, elapse. simpl.
  match goal with
  | |- context [hw_ticks ?n (reg_set KINETIS_RTC_TAR ?v ?h)] =>
      destruct (hw_ticks_frame n (reg_set KINETIS_RTC_TAR v h))
        as (_ & Htar & _)
  end.
  unfold reg_set in *. simpl in *. repeat split; try reflexivity.
  exact Htar.
Qed.

Lemma cancelalarm_armed_basic st :
  g_alarmcb st <> None ->
  let st' := snd (kinetis_rtc_cancelalarm st) in
  fst (kinetis_rtc_cancelalarm st) = OK
  /\ g_alarmcb st' = None
  /\ RTC_IER (hw st') = 0
  /\ RTC_TAR (hw st') = RTC_TAR (hw st)
  /\ fired st' = fired st.
Proof.
  intros Hcb. unfold kinetis_rtc_cancelalarm.
  destruct (g_alarmcb st) as [f|]; [|congruence].
  unfold bind, putreg32, ret, elapse. simpl.
  destruct (hw_ticks_frame (clk st (length (bus st))) (hw st))
    as (_ & Htar & _).
  unfold reg_set. simpl. rewrite uint32_0.
  repeat split; try reflexivity. exact Htar.
Qed.

Lemma interrupt_fired st :
  fired (snd (kinetis_rtc_interrupt st)) =
    match g_alarmcb st with
    | Some f => fired st ++ [f]
    | None => fired st
    end
  /\ g_alarmcb (snd (kinetis_rtc_interrupt st)) = None.
Proof.
  rewrite interrupt_unfold.
  destruct (interrupt_tail (after_callback st)) as (T1 & T2 & _).
  destruct (after_callback_frame st) as (C1 & C2 & C3 & _).
  cbv zeta in T1, T2. rewrite T1, T2. split; [|exact C1].
  destruct (g_alarmcb st) as [f|] eqn:E; [now apply C2|].
  now rewrite C3.
Qed.

(** X9.  Cancel-then-no-fire.  From an empty slot, a request that is
    accepted and then cancelled leaves the alarm interrupt disabled and
    the slot empty, with the compare register still holding the
    cancelled target; should the handler run all the same, the cancelled
    callback is not invoked. *)
Theorem cancelled_alarm_never_fires st tp f :
  g_alarmcb st = None ->
  let st1 := snd (kinetis_rtc_setalarm tp (Some f) st) in
  let st2 := snd (kinetis_rtc_cancelalarm st1) in
  fst (kinetis_rtc_setalarm tp (Some f) st) = OK
  /\ fst (kinetis_rtc_cancelalarm st1) = OK
  /\ g_alarmcb st2 = None
  /\ alarm_armed st2 = false
  /\ RTC_TAR (hw st2) = uint32 (tv_sec tp)
  /\ fired (snd (kinetis_rtc_interrupt st2)) = fired st.
Proof.
  intros Hcb. cbv zeta.
  destruct (setalarm_idle_basic st tp (Some f) Hcb) as (R1 & G1 & T1 & F1).
  cbv zeta in *.
  set (st1 := snd (kinetis_rtc_setalarm tp (Some f) st)) in *.
  destruct (cancelalarm_armed_basic st1) as (R2 & G2 & I2 & T2 & F2);
    [congruence|].
  cbv zeta in *.
  set (st2 := snd (kinetis_rtc_cancelalarm st1)) in *.
  destruct (interrupt_fired st2) as (F3 & _). rewrite G2 in F3.
  split; [exact R1|]. split; [exact R2|]. split; [exact G2|].
  split; [unfold alarm_armed; rewrite I2; reflexivity|].
  split; congruence.
Qed.

(** X12.  Single-slot exclusion, end to end.  While a first request is
    pending a second one is refused with [-EBUSY] and changes nothing; the
    compare register keeps the first target, and when the handler runs it
    invokes the first callback and no other. *)
Theorem second_request_never_fires st tpA fa tpB cbB :
  g_alarmcb st = None ->
  let st1 := snd (kinetis_rtc_setalarm tpA (Some fa) st) in
  let st2 := snd (kinetis_rtc_setalarm tpB cbB st1) in
  kinetis_rtc_setalarm tpB cbB st1 = (- EBUSY, st1)
  /\ RTC_TAR (hw st2) = uint32 (tv_sec tpA)
  /\ g_alarmcb st2 = Some fa
  /\ fired (snd (kinetis_rtc_interrupt st2)) = fired st ++ [fa].
Proof.
  intros Hcb. cbv zeta.
  destruct (setalarm_idle_basic st tpA (Some fa) Hcb) as (_ & G1 & T1 & F1).
  cbv zeta in *.
  set (st1 := snd (kinetis_rtc_setalarm tpA (Some fa) st)) in *.
  assert (B : kinetis_rtc_setalarm tpB cbB st1 = (- EBUSY, st1))
    by (apply setalarm_when_busy; congruence).
  rewrite B. cbn [snd].
  destruct (interrupt_fired st1) as (F3 & _). rewrite G1 in F3.
  split; [reflexivity|]. split; [exact T1|]. split; [exact G1|]. congruence.
Qed.



Lemma slot_load_le_1 st : (slot_load st <= 1)%nat.
Proof. unfold slot_load. destruct (g_alarmcb st); lia. Qed.

Lemma fired_step op st :
  (length (fired (snd (alarm_exec op st))) + slot_load (snd (alarm_exec op st))
   <= length (fired st) + slot_load st + (if accepts op st then 1 else 0))%nat.
Proof.
  destruct op as [tp cb| |]; cbn [alarm_exec accepts].
  - destruct (slot_cases st) as [Hcb|Hcb].
    + destruct (setalarm_idle_basic st tp cb Hcb) as (R & G & _ & F).
      cbv zeta in *. rewrite F. unfold slot_load at 1. rewrite G.
      destruct cb as [f|]; [|lia].
      cbn [alarm_exec]. rewrite R. cbn. lia.
    + rewrite setalarm_when_busy by assumption. cbn [snd]. lia.
  - destruct (slot_cases st) as [Hcb|Hcb].
    + rewrite cancelalarm_when_idle by assumption. cbn [snd]. lia.
    + destruct (cancelalarm_armed_basic st Hcb) as (_ & G & _ & _ & F).
      cbv zeta in *. rewrite F. unfold slot_load at 1. rewrite G. lia.
  - destruct (interrupt_fired st) as (F & G).
    rewrite F. unfold slot_load. rewrite G.
    destruct (g_alarmcb st); rewrite ?length_app; cbn [length]; lia.
Qed.

(** X10.  No request fires twice.  Over any sequence of set-alarm,
    cancel-alarm and interrupt-handler steps, the callbacks invoked plus
    the one still stored number at most the callbacks stored at the start
    plus the set-alarm calls that passed a callback and returned OK.
    From an empty slot: never more invocations than accepted requests. *)
Theorem no_request_fires_twice ops : forall st,
  (length (fired (alarm_run ops st)) + slot_load (alarm_run ops st)
   <= length (fired st) + slot_load st + accepted_requests ops st)%nat.
Proof.
  induction ops as [|op ops IH]; intros st;
    cbn [alarm_run accepted_requests]; [lia|].
  pose proof (IH (snd (alarm_exec op st))) as H.
  pose proof (fired_step op st) as S. lia.
Qed.
End AlarmRuns.

(** * The Kinetis K20 build *)

#[local] Existing Instance k20.

Lemma racing_clk_period q r : racing_clk (3 * q + r) = racing_clk r.
Proof.
  induction q as [|q IH]; [reflexivity|].
  replace (3 * S q + r)%nat with (S (S (S (3 * q + r)))) by lia.
  exact IH.
Qed.

Lemma racing_elapsed st q :
  clk st = racing_clk -> length (bus st) = (3 * q)%nat ->
  Z.of_nat (elapsed st 1) = 32767
  /\ Z.of_nat (elapsed st 2) = 32768
  /\ Z.of_nat (elapsed st 3) = 32768.
Proof.
  intros Hc Hl. cbn [elapsed]. rewrite Hc, Hl.
  rewrite !racing_clk_period.
  change (racing_clk 0) with (Z.to_nat 32767).
  change (racing_clk 1) with 1%nat. change (racing_clk 2) with 0%nat.
  rewrite !Nat2Z.inj_add, Z2Nat.id by lia. cbn [Z.of_nat]. lia.
Qed.

Lemma k20_frequency : @CONFIG_RTC_FREQUENCY k20 = 32768.
Proof. reflexivity. Qed.

Lemma at_second_start_wf st :
  at_second_start st -> counter_wf (hw st) = true.
Proof.
  intros (_ & _ & _ & Hp & Hs). unfold counter_wf, is_uint32.
  rewrite Hp, k20_frequency.
  rewrite !andb_true_iff, !Z.leb_le, !Z.ltb_lt. lia.
Qed.

Lemma racing_iteration st :
  at_second_start st ->
  RTC_TPR (hw_ticks (elapsed st 1) (hw st)) = 32767
  /\ RTC_TPR (hw_ticks (elapsed st 3) (hw st)) = 0
  /\ (forall st3, after_reads 3 st st3 -> at_second_start st3)
  /\ wraps (elapsed st 3) (hw st) = 1%nat.
Proof.
  intros I. pose proof (at_second_start_wf _ I) as Hwf.
  destruct I as (Hc & (q & Hl) & Hrun & Hp & Hs).
  destruct (racing_elapsed st q Hc Hl) as (E1 & E2 & E3).
  assert (Hf : 0 < @CONFIG_RTC_FREQUENCY k20) by (rewrite k20_frequency; lia).
  rewrite !hw_ticks_running by assumption.
  cbn [reg_set RTC_TPR]. rewrite Hp, E1, E3, k20_frequency.
  split; [reflexivity|]. split; [reflexivity|]. split.
  - intros st3 A.
    pose proof (ar_hw _ _ _ A) as Ahw.
    pose proof (ar_len _ _ _ A) as Alen.
    pose proof (ar_clk _ _ _ A) as Aclk.
    rewrite hw_ticks_running in Ahw by assumption.
    rewrite Hp, E3, k20_frequency in Ahw.
    repeat split.
    + congruence.
    + exists (S q). lia.
    + rewrite Ahw. exact Hrun.
    + rewrite Ahw. reflexivity.
    + rewrite Ahw. cbn [reg_set RTC_TSR]. apply uint32_range.
    + rewrite Ahw. cbn [reg_set RTC_TSR]. apply uint32_range.
  - apply Nat2Z.inj. rewrite wraps_running by assumption.
    rewrite Hp, E3, k20_frequency. reflexivity.
Qed.

Lemma racing_loop_spins fuel : forall st,
  at_second_start st -> gettime_loop fuel st = None.
Proof.
  induction fuel as [|fuel IH]; intros st I; [reflexivity|].
  cbn [gettime_loop].
  destruct (racing_iteration st I) as (R1 & R3 & Inext & _).
  destruct (loop_body st) as (A & V1 & _ & V3 & _).
  cbv zeta in A, V1, V3.
  destruct (getreg32 KINETIS_RTC_TPR st) as [p1 st1]; cbn [fst snd] in *.
  destruct (getreg32 KINETIS_RTC_TSR st1) as [s0 st2]; cbn [fst snd] in *.
  destruct (getreg32 KINETIS_RTC_TPR st2) as [p2 st3]; cbn [fst snd] in *.
  rewrite V1, V3, R1, R3. cbn [Z.gtb Z.compare].
  apply IH, Inext, A.
Qed.

Lemma racing_start : at_second_start racing.
Proof.
  repeat split; try reflexivity; try (cbn; lia).
  exists 0%nat. reflexivity.
Qed.

(** The state after [j] iterations on the racing schedule. *)
Lemma racing_reaches j :
  exists st, after_reads (3 * j) racing st /\ at_second_start st.
Proof.
  induction j as [|j (st & A & I)].
  - exists racing. split; [apply after_reads_refl|apply racing_start].
  - destruct (racing_iteration st I) as (_ & _ & Inext & _).
    destruct (loop_body st) as (A3 & _). cbv zeta in A3.
    eexists. split; [|apply Inext, A3].
    replace (3 * S j)%nat with (3 * j + 3)%nat by lia.
    eapply after_reads_trans; eassumption.
Qed.

Lemma iteration_wraps_at st st' j :
  after_reads (3 * j) st st' ->
  iteration_wraps st j = wraps (elapsed st' 3) (hw st').
Proof.
  intros A. unfold iteration_wraps.
  pose proof (hw_at_shift (3 * j) st st' 0 A) as Hh.
  pose proof (elapsed_shift (3 * j) st st' 3 (ar_clk _ _ _ A) (ar_len _ _ _ A))
    as He.
  rewrite Nat.add_0_r in Hh. cbn [elapsed hw_ticks] in Hh.
  rewrite <- Hh, He. f_equal. lia.
Qed.

Lemma racing_one_wrap_per_iteration j : iteration_wraps racing j = 1%nat.
Proof.
  destruct (racing_reaches j) as (st & A & I).
  destruct (racing_iteration st I) as (_ & _ & _ & W).
  now rewrite (iteration_wraps_at racing st j A).
Qed.

(** C9, counterexample.  On the racing schedule the counter is well
    formed, only ever moves forward, and no iteration of the read loop
    sees more than one wrap; yet every iteration reads 32767 and then 0,
    so [up_rtc_gettime] returns with no amount of fuel. *)
Lemma gettime_racing_never_returns :
  counter_wf (hw racing) = true
  /\ (forall j, (iteration_wraps racing j <= 1)%nat)
  /\ (forall fuel, up_rtc_gettime fuel racing = None).
Proof.
  split; [reflexivity|]. split.
  - intros j. rewrite racing_one_wrap_per_iteration. lia.
  - intros fuel. unfold up_rtc_gettime, enter_critical_section.
    rewrite racing_loop_spins; [reflexivity|].
    apply racing_start.
Qed.

(** C9, amended, at a concrete schedule: the first iteration of
    [torn_start] straddles a wrap, the second does not. *)
Lemma gettime_terminates_witness :
  reread_wraps torn_start 1 = 0%nat
  /\ exists tp st' pre p1 p2,
       up_rtc_gettime 2 torn_start = Some ((OK, tp), st')
       /\ issued torn_start st' =
            pre ++ [RegRead KINETIS_RTC_TPR p1;
                    RegRead KINETIS_RTC_TSR (tv_sec tp);
                    RegRead KINETIS_RTC_TPR p2]
       /\ p1 <= p2.
Proof.
  split; [reflexivity|].
  apply (@gettime_terminates k20 torn_start 1). reflexivity.
Defined.

(** C1 at a concrete schedule: a wrap falls between the first prescaler
    read and the seconds read, the loop goes round again, and the pair
    returned is the one on display at the start of second 10. *)
Lemma gettime_no_tear_witness :
  chip_ok k20 = true
  /\ counter_wf (hw torn_start) = true
  /\ up_rtc_gettime 2 torn_start = Some ((OK, mkTimespec 10 0), torn_end)
  /\ exists j n p2 pre,
       (j < 2)%nat
       /\ (elapsed torn_start (3 * j + 1) <= n
           <= elapsed torn_start (3 * j + 3))%nat
       /\ tv_sec (mkTimespec 10 0) = RTC_TSR (hw_ticks n (hw torn_start))
       /\ tv_nsec (mkTimespec 10 0) =
            RTC_TPR (hw_ticks n (hw torn_start))
            * Z.quot 1000000000 CONFIG_RTC_FREQUENCY
       /\ 0 <= tv_nsec (mkTimespec 10 0) < 1000000000
       /\ hw torn_end = hw_ticks (elapsed torn_start (3 * j + 3)) (hw torn_start)
       /\ issued torn_start torn_end =
            pre ++ [RegRead KINETIS_RTC_TPR
                      (RTC_TPR (hw_ticks n (hw torn_start)));
                    RegRead KINETIS_RTC_TSR (tv_sec (mkTimespec 10 0));
                    RegRead KINETIS_RTC_TPR p2]
       /\ RTC_TPR (hw_ticks n (hw torn_start)) <= p2
       /\ OK = OK.
Proof.
  split; [reflexivity|]. split; [reflexivity|]. split; [reflexivity|].
  apply (@gettime_no_tear k20 2 torn_start OK (mkTimespec 10 0) torn_end);
    reflexivity.
Defined.

(** C3, the code at a concrete input.  With the 32768 Hz oscillator the
    factor [CONFIG_RTC_FREQUENCY / 1000000000] of the write path is zero:
    for half a second past the second, [up_rtc_settime] writes 0 to the
    prescaler, where the inverse of the read-path formula gives 16384. *)
Theorem settime_prescaler_not_inverse st :
  let st' := snd (up_rtc_settime half_past st) in
  RTC_TPR (hw st') = 0
  /\ In (RegWrite KINETIS_RTC_TPR 0) (issued st st')
  /\ spec_fraction_of_nsec (tv_nsec half_past) = 16384.
Proof.
  cbv zeta. split; [|split].
  - apply settime_prescaler_zero. cbn. lia.
  - destruct (settime_run st half_past) as (_ & B & _).
    cbv zeta in B. rewrite (issued_app _ _ _ B). right. left. reflexivity.
  - reflexivity.
Qed.

(** C2, the code at a concrete input.  Writing 1000 s + 500000000 ns and
    reading it back in high resolution, with the hardware standing still
    in between, yields 1000 s + 0 ns: the fraction is off by half a
    second, far more than the one tick of 30517 ns the round trip is
    allowed. *)
Theorem settime_gettime_drops_fraction :
  let st1 := snd (up_rtc_settime half_past (power_on regs0 still no_host)) in
  exists st2,
    up_rtc_gettime 1 st1 = Some ((OK, mkTimespec 1000 0), st2)
    /\ tv_nsec half_past - 0 > 1 * Z.quot 1000000000 CONFIG_RTC_FREQUENCY.
Proof.
  cbv zeta. eexists. split; [vm_compute; reflexivity|].
  cbn. lia.
Qed.

(** C8, counterexample.  One set-alarm step with a NULL callback from the
    initialised machine: the alarm interrupt is enabled and the slot is
    empty, so the if-and-only-if fails in a reachable state. *)
Lemma slot_invariant_null_callback_cex :
  let st := alarm_run [OpSetAlarm (mkTimespec 100 0) None]
              (initialized (power_on regs0 still no_host)) in
  g_alarmcb st = None /\ alarm_armed st = true /\ ~ slot_invariant st.
Proof.
  cbv zeta. split; [reflexivity|]. split; [reflexivity|].
  intros [_ H]. apply H; reflexivity.
Qed.

(** C8, amended, on a run that arms, fires, re-arms and cancels. *)
Lemma slot_invariant_reachable_witness :
  chip_ok k20 = true
  /\ g_alarmcb (power_on regs0 still rearming_host) = None
  /\ forallb passes_callback
       [OpSetAlarm (mkTimespec 100 0) (Some 7%nat); OpInterrupt;
        OpSetAlarm (mkTimespec 200 0) (Some 9%nat); OpCancelAlarm] = true
  /\ slot_invariant
       (alarm_run
          [OpSetAlarm (mkTimespec 100 0) (Some 7%nat); OpInterrupt;
           OpSetAlarm (mkTimespec 200 0) (Some 9%nat); OpCancelAlarm]
          (initialized (power_on regs0 still rearming_host))).
Proof.
  split; [reflexivity|]. split; [reflexivity|]. split; [reflexivity|].
  apply (@slot_invariant_reachable k20 (power_on regs0 still rearming_host)
           [OpSetAlarm (mkTimespec 100 0) (Some 7%nat); OpInterrupt;
            OpSetAlarm (mkTimespec 200 0) (Some 9%nat); OpCancelAlarm]
           eq_refl eq_refl).
  reflexivity.
Defined.

(** C5 on the K20: a second request while one is pending is refused and
    changes nothing; a request on the idle machine is accepted. *)
Lemma setalarm_busy_or_arms_witness :
  chip_ok k20 = true
  /\ g_alarmcb alarm_pending <> None
  /\ g_alarmcb alarm_idle = None
  /\ kinetis_rtc_setalarm (mkTimespec 200 0) (Some 9%nat) alarm_pending
     = (- EBUSY, alarm_pending)
  /\ fst (kinetis_rtc_setalarm (mkTimespec 100 0) (Some 7%nat) alarm_idle)
     = OK.
Proof.
  split; [reflexivity|]. split; [discriminate|]. split; [reflexivity|].
  split.
  - apply (@setalarm_busy_or_arms k20 alarm_pending (mkTimespec 200 0)
             (Some 9%nat) eq_refl).
    discriminate.
  - apply (@setalarm_busy_or_arms k20 alarm_idle (mkTimespec 100 0)
             (Some 7%nat) eq_refl).
    reflexivity.
Defined.

(** C6 on the K20: cancelling on the idle machine is refused; cancelling
    the pending alarm succeeds and empties the slot. *)
Lemma cancelalarm_noalarm_or_disarms_witness :
  chip_ok k20 = true
  /\ g_alarmcb alarm_idle = None
  /\ g_alarmcb alarm_pending <> None
  /\ kinetis_rtc_cancelalarm alarm_idle = (- ENODATA, alarm_idle)
  /\ g_alarmcb (snd (kinetis_rtc_cancelalarm alarm_pending)) = None.
Proof.
  split; [reflexivity|]. split; [reflexivity|]. split; [discriminate|].
  split.
  - apply (@cancelalarm_noalarm_or_disarms k20 alarm_idle eq_refl). reflexivity.
  - apply (@cancelalarm_noalarm_or_disarms k20 alarm_pending eq_refl).
    discriminate.
Defined.

(** C7 on the K20: the pending callback, which itself cancels and re-arms
    from interrupt context, is invoked once; the slot is empty after. *)
Lemma interrupt_fires_once_and_clears_witness :
  g_alarmcb alarm_pending = Some 7%nat
  /\ fired (snd (kinetis_rtc_interrupt alarm_pending))
     = fired alarm_pending ++ [7%nat].
Proof.
  split; [reflexivity|].
  apply (@interrupt_fires_once_and_clears k20 alarm_pending). reflexivity.
Defined.

(** C10 on the K20: a NULL request on the idle machine. *)
Lemma setalarm_null_callback_leaves_slot_empty_witness :
  chip_ok k20 = true
  /\ g_alarmcb alarm_idle = None
  /\ alarm_armed (snd (kinetis_rtc_setalarm (mkTimespec 100 0) None alarm_idle))
     = true
  /\ g_alarmcb (snd (kinetis_rtc_setalarm (mkTimespec 100 0) None alarm_idle))
     = None.
Proof.
  split; [reflexivity|]. split; [reflexivity|].
  split;
    apply (@setalarm_null_callback_leaves_slot_empty k20 alarm_idle
             (mkTimespec 100 0) eq_refl eq_refl).
Defined.

(** X2 on the K20: a warm boot in second 41 with the counter running. *)
Lemma initialize_keeps_time_witness :
  chip_ok k20 = true
  /\ is_uint32 (RTC_TSR (hw warm_boot)) = true
  /\ RTC_TSR (hw (snd (up_rtc_initialize warm_boot)))
     = RTC_TSR (hw_ticks (elapsed warm_boot 3) (hw warm_boot))
  /\ RTC_TPR (hw (snd (up_rtc_initialize warm_boot)))
     = RTC_TPR (hw_ticks (elapsed warm_boot 3) (hw warm_boot))
  /\ counting (hw (snd (up_rtc_initialize warm_boot))) = true.
Proof.
  split; [reflexivity|]. split; [reflexivity|].
  apply (@initialize_keeps_time k20 warm_boot); reflexivity.
Defined.

(** X3 on the K20: bit 29, the RTC gate itself. *)
Lemma initialize_opens_clock_gate_witness :
  0 <= 29 < 32
  /\ Z.testbit (SIM_SCGC6 (hw (snd (up_rtc_initialize warm_boot)))) 29
     = Z.testbit (SIM_SCGC6 (hw warm_boot)) 29 || Z.testbit SIM_SCGC6_RTC 29.
Proof.
  split; [lia|].
  apply (@initialize_opens_clock_gate k20 warm_boot 29). lia.
Defined.

(** X4 on the K20: half past second 1000 written on the warm machine. *)
Lemma settime_then_time_counts_witness :
  chip_ok k20 = true
  /\ uint32 (tv_nsec half_past * Z.quot CONFIG_RTC_FREQUENCY 1000000000)
     < CONFIG_RTC_FREQUENCY
  /\ fst (up_rtc_time (snd (up_rtc_settime half_past warm_boot)))
     = uint32
         (tv_sec half_past
          + (uint32 (tv_nsec half_past
                     * Z.quot CONFIG_RTC_FREQUENCY 1000000000)
             + Z.of_nat (clk warm_boot (length (bus warm_boot) + 4)))
            / CONFIG_RTC_FREQUENCY).
Proof.
  split; [reflexivity|]. split; [reflexivity|].
  destruct (@settime_then_time_counts k20 warm_boot half_past
              eq_refl eq_refl) as (H & _).
  exact H.
Defined.

(** X5 on the K20: two reads, a tick before every bus access. *)
Lemma gettime_monotonic_witness :
  chip_ok k20 = true
  /\ counter_wf (hw warm_boot) = true
  /\ up_rtc_gettime 1 warm_boot
     = Some ((OK, mkTimespec 41 3082217), warm_read1)
  /\ up_rtc_gettime 1 warm_read1
     = Some ((OK, mkTimespec 41 3173768), warm_read2)
  /\ ticks_shown (hw warm_boot)
     + Z.of_nat (elapsed warm_boot (length (issued warm_boot warm_read2)))
     < 2 ^ 32 * CONFIG_RTC_FREQUENCY
  /\ (tv_sec (mkTimespec 41 3082217) < tv_sec (mkTimespec 41 3173768)
      \/ (tv_sec (mkTimespec 41 3082217) = tv_sec (mkTimespec 41 3173768)
          /\ tv_nsec (mkTimespec 41 3082217)
             <= tv_nsec (mkTimespec 41 3173768))).
Proof.
  split; [reflexivity|]. split; [reflexivity|]. split; [reflexivity|].
  split; [reflexivity|]. split; [reflexivity|].
  apply (@gettime_monotonic k20 1 1 warm_boot OK (mkTimespec 41 3082217)
           warm_read1 OK (mkTimespec 41 3173768) warm_read2);
    reflexivity.
Defined.

(** X6 on the K20: the read that goes round its loop twice. *)
Lemma gettime_only_reads_witness :
  up_rtc_gettime 2 torn_start = Some ((OK, mkTimespec 10 0), torn_end)
  /\ forallb is_read (issued torn_start torn_end) = true
  /\ hw torn_end
     = hw_ticks (elapsed torn_start (length (issued torn_start torn_end)))
         (hw torn_start)
  /\ irq_masked torn_end = irq_masked torn_start.
Proof.
  split; [reflexivity|].
  destruct (@gettime_only_reads k20 2 torn_start OK (mkTimespec 10 0)
              torn_end eq_refl)
    as (_ & R & H & _ & _ & _ & _ & M & _).
  split; [exact R|]. split; [exact H|exact M].
Defined.

(** X9 on the K20: a request for host function 7, cancelled. *)
Lemma cancelled_alarm_never_fires_witness :
  g_alarmcb alarm_idle = None
  /\ fired
       (snd (kinetis_rtc_interrupt
               (snd (kinetis_rtc_cancelalarm
                       (snd (kinetis_rtc_setalarm (mkTimespec 100 0)
                               (Some 7%nat) alarm_idle))))))
     = fired alarm_idle.
Proof.
  split; [reflexivity|].
  apply (@cancelled_alarm_never_fires k20 alarm_idle (mkTimespec 100 0)
           7%nat).
  reflexivity.
Defined.


(** X12 on the K20: a second request while the first is pending. *)
Lemma second_request_never_fires_witness :
  g_alarmcb alarm_idle = None
  /\ fired
       (snd (kinetis_rtc_interrupt
               (snd (kinetis_rtc_setalarm (mkTimespec 200 0) (Some 9%nat)
                       (snd (kinetis_rtc_setalarm (mkTimespec 100 0)
                               (Some 7%nat) alarm_idle))))))
     = fired alarm_idle ++ [7%nat].
Proof.
  split; [reflexivity|].
  apply (@second_request_never_fires k20 alarm_idle (mkTimespec 100 0)
           7%nat (mkTimespec 200 0) (Some 9%nat)).
  reflexivity.
Defined.
